(** * Retrieval, ranking and context assembly of the offline Wikipedia search

    A shallow embedding of [local/wikipedia_search.py]
    ([WikipediaSearchEngine], [WikipediaContextExtractor]) and of
    [local-version/enhanced_wikipedia_api.py] ([EnhancedWikipediaAPI]).

    Modelling conventions.
    - Text is [string]; the model covers ASCII text: [\w], [\s], [str.lower]
      and [str.capitalize] are the ASCII restrictions of Python's tables.
    - Python [float] scores are the exact rationals [Q] of the formulas the
      code evaluates; [min], [abs], [<], [>=] are the rational ones.
    - Python [int] arguments ([limit], [max_length], [max_articles]) are [Z].
    - The SQLite connection is a [CorpusStore]: the two queries the code
      issues, each of which may raise ([None]).
    - [set(...)] is a duplicate-free list; only membership and [len] of the
      sets are observed by the code.
    - The insertion-ordered [dict] [all_results] is an association list. *)

From Stdlib Require Import List String Ascii Bool Arith ZArith QArith Qminmax Qabs.
From Stdlib Require Import Lia Lqa Permutation Sorted.
Import ListNotations.
Open Scope string_scope.

(* ------------------------------------------------------------------ *)
(** ** Python strings *)

Module PyStr.

Definition between (lo hi : nat) (c : ascii) : bool :=
  let n := nat_of_ascii c in (lo <=? n)%nat && (n <=? hi)%nat.

(** [[A-Z]], [[a-z]], [[0-9]] *)
Definition is_upper (c : ascii) : bool := between 65 90 c.
Definition is_lower (c : ascii) : bool := between 97 122 c.
Definition is_digit (c : ascii) : bool := between 48 57 c.
Definition is_alpha (c : ascii) : bool := is_upper c || is_lower c.

(** [\w]: letters, digits and the underscore. *)
Definition is_word (c : ascii) : bool :=
  is_alpha c || is_digit c || (nat_of_ascii c =? 95)%nat.

(** [\s] and [str.isspace]: TAB..CR, FS..US and the space. *)
Definition is_space (c : ascii) : bool :=
  between 9 13 c || between 28 32 c.

Definition lower_char (c : ascii) : ascii :=
  if is_upper c then ascii_of_nat (nat_of_ascii c + 32) else c.

Definition upper_char (c : ascii) : ascii :=
  if is_lower c then ascii_of_nat (nat_of_ascii c - 32) else c.

Fixpoint map_chars (f : ascii -> ascii) (s : string) : string :=
  match s with
  | EmptyString => EmptyString
  | String c s' => String (f c) (map_chars f s')
  end.

(** [s.lower()] *)
Definition lower (s : string) : string := map_chars lower_char s.

(** [s.capitalize()] *)
Definition capitalize (s : string) : string :=
  match s with
  | EmptyString => EmptyString
  | String c s' => String (upper_char c) (lower s')
  end.

Fixpoint forallb_chars (p : ascii -> bool) (s : string) : bool :=
  match s with
  | EmptyString => true
  | String c s' => p c && forallb_chars p s'
  end.

(** [len(s)] *)
Definition len (s : string) : Z := Z.of_nat (String.length s).

(** [bool(s)]: a string is truthy when it is not empty. *)
Definition truthy (s : string) : bool :=
  match s with EmptyString => false | _ => true end.

(** [s[:n]] for any integer [n] (a negative [n] counts from the end). *)
Fixpoint take (n : nat) (s : string) : string :=
  match n, s with
  | O, _ => EmptyString
  | _, EmptyString => EmptyString
  | S n', String c s' => String c (take n' s')
  end.

Definition slice_to (s : string) (n : Z) : string :=
  if (0 <=? n)%Z then take (Z.to_nat n) s
  else take (Z.to_nat (len s + n)) s.

(** [needle in hay] *)
Fixpoint contains (needle hay : string) : bool :=
  prefix needle hay ||
  match hay with
  | EmptyString => false
  | String _ hay' => contains needle hay'
  end.

(** [s.lstrip()], [s.rstrip()], [s.strip()] *)
Fixpoint lstrip (s : string) : string :=
  match s with
  | EmptyString => EmptyString
  | String c s' => if is_space c then lstrip s' else s
  end.

Fixpoint rstrip (s : string) : string :=
  match s with
  | EmptyString => EmptyString
  | String c s' =>
      match rstrip s' with
      | EmptyString => if is_space c then EmptyString else String c EmptyString
      | r => String c r
      end
  end.

Definition strip (s : string) : string := rstrip (lstrip s).

(** [sep.join(parts)] *)
Fixpoint join (sep : string) (parts : list string) : string :=
  match parts with
  | [] => EmptyString
  | [p] => p
  | p :: ps => p ++ sep ++ join sep ps
  end.

(** [re.sub(r'\s+', ' ', s)]: every maximal run of white space becomes one
    space. *)
Fixpoint collapse_spaces (s : string) : string :=
  match s with
  | EmptyString => EmptyString
  | String c s' =>
      if is_space c then
        match s' with
        | String d _ => if is_space d then collapse_spaces s'
                        else String " " (collapse_spaces s')
        | EmptyString => String " " EmptyString
        end
      else String c (collapse_spaces s')
  end.

(** The maximal runs of [\w] characters of [s], left to right.  A pattern
    [\bC+\b] whose class [C] is a subset of [\w] can only match a whole
    maximal run: [\b] fails inside a run, so a match starts where a run
    starts, and the closing [\b] fails before the run ends. *)
Fixpoint word_runs (s : string) : list string :=
  match s with
  | EmptyString => []
  | String c s' =>
      if is_word c then
        match s' with
        | EmptyString => [String c EmptyString]
        | String d _ =>
            if is_word d then
              match word_runs s' with
              | w :: ws => String c w :: ws
              | [] => [String c EmptyString]
              end
            else String c EmptyString :: word_runs s'
        end
      else word_runs s'
  end.

(** [re.findall(r'\b\w+\b', s)] *)
Definition findall_words (s : string) : list string := word_runs s.

(** [re.findall(r'\b\w{3,}\b', s)] *)
Definition findall_words3 (s : string) : list string :=
  filter (fun w => (3 <=? String.length w)%nat) (word_runs s).

(** [re.findall(r'\b[A-Za-z]+\b', s)] *)
Definition findall_alpha (s : string) : list string :=
  filter (forallb_chars is_alpha) (word_runs s).

(** [re.findall(r'\b[A-Z][a-z]+\b|\b[a-z]{4,}\b', s)] *)
Definition capitalized_word (w : string) : bool :=
  match w with
  | String c (String d r) => is_upper c && forallb_chars is_lower (String d r)
  | _ => false
  end.

Definition long_lower_word (w : string) : bool :=
  forallb_chars is_lower w && (4 <=? String.length w)%nat.

Definition findall_important (s : string) : list string :=
  filter (fun w => capitalized_word w || long_lower_word w) (word_runs s).

(** Sets of strings: [set(l)], [x in s], [a & b], [a | b]. *)
Definition mem (w : string) (l : list string) : bool :=
  existsb (String.eqb w) l.

Definition to_set (l : list string) : list string := nodup string_dec l.

Definition inter (a b : list string) : list string :=
  filter (fun w => mem w b) a.

Definition union (a b : list string) : list string :=
  (a ++ filter (fun w => negb (mem w a)) b)%list.

End PyStr.

Import PyStr.

(** The line feed and the double quote. *)
Definition nl : string := String (ascii_of_nat 10) EmptyString.
Definition dquote : string := String (ascii_of_nat 34) EmptyString.

(** [x < y] on scores. *)
Definition Qlt_bool (x y : Q) : bool := negb (Qle_bool y x).

(* ------------------------------------------------------------------ *)
(** ** The corpus store: the SQLite tables behind the engine *)

(** The [categories] column: NULL or empty text, a JSON list of strings, or
    text that [json.loads] rejects. *)
Inductive CategoriesCell : Type :=
| CatEmpty
| CatJson (cats : list string)
| CatMalformed.

(** A row of [wikipedia_articles]; [summary] may be NULL. *)
Record Article : Type := mkArticle {
  art_id : Z;
  art_article_id : string;
  art_title : string;
  art_summary : option string;
  art_content : string;
  art_categories : CategoriesCell
}.

(** A row of the full-text query of [search]: the article joined with
    [fts.rank] and the [snippet(...)] column. *)
Record FtsRow : Type := mkFtsRow {
  row_article : Article;
  row_rank : option Q;
  row_snippet : option string
}.

(** The two statements the code executes.  [None] is a raised exception.
    - [fts_match q limit]: [... WHERE wikipedia_fts MATCH q ORDER BY fts.rank
      DESC LIMIT limit], all rows fetched;
    - [title_equals t]: [SELECT * FROM wikipedia_articles WHERE title = t
      LIMIT 1], one row fetched. *)
Record CorpusStore : Type := mkStore {
  fts_match : string -> Z -> option (list FtsRow);
  title_equals : string -> option (option Article)
}.

(** [row['summary'] or ''] *)
Definition summary_or_empty (a : Article) : string :=
  match art_summary a with
  | Some s => s
  | None => EmptyString
  end.

(** [json.loads(row['categories']) if row['categories'] else []] *)
Definition load_categories (a : Article) : option (list string) :=
  match art_categories a with
  | CatEmpty => Some []
  | CatJson cats => Some cats
  | CatMalformed => None
  end.

(** The dataclass [SearchResult]. *)
Record SearchResult : Type := mkSearchResult {
  id : Z;
  article_id : string;
  title : string;
  summary : string;
  content : string;
  categories : list string;
  relevance_score : Q;
  snippet : string
}.

(** [result.relevance_score = relevance] *)
Definition set_relevance_score (r : SearchResult) (relevance : Q) : SearchResult :=
  mkSearchResult (id r) (article_id r) (title r) (summary r) (content r)
                 (categories r) relevance (snippet r).

(* ------------------------------------------------------------------ *)
(** ** [WikipediaSearchEngine] *)

Module WikipediaSearchEngine.

(** [prepare_fts_query] *)
Definition prepare_fts_query (query : string) : string :=
  let words := findall_words (lower query) in
  match words with
  | [] => query
  | [w] => w
  | _ =>
      if (Z.of_nat (List.length words) <=? 3)%Z
      then dquote ++ join " " words ++ dquote
      else join " AND " (firstn 5 words)
  end.

(** [len(query_words & words) / len(query_words) if query_words else 0] *)
Definition overlap (query_words words : list string) : Q :=
  match query_words with
  | [] => 0
  | _ => inject_Z (Z.of_nat (List.length (inter query_words words)))
         / inject_Z (Z.of_nat (List.length query_words))
  end.

(** [abs(row['rank']) if row['rank'] else 0] *)
Definition fts_rank (row : FtsRow) : Q :=
  match row_rank row with
  | Some r => if Qeq_bool r 0 then 0 else Qabs r
  | None => 0
  end.

(** The value of [score] in [calculate_relevance_score] just before the
    final [min(score, 1.0)]. *)
Definition relevance_sum (query : string) (row : FtsRow) : Q :=
  let title := lower (art_title (row_article row)) in
  let summary := lower (summary_or_empty (row_article row)) in
  let query_lower := lower query in
  let score := 0 in
  let score := if contains query_lower title then score + 1 else score in
  let query_words := to_set (findall_words query_lower) in
  let title_words := to_set (findall_words title) in
  let title_overlap := overlap query_words title_words in
  let score := score + title_overlap * 0.8 in
  let score :=
    if truthy summary then
      let summary_words := to_set (findall_words summary) in
      let summary_overlap := overlap query_words summary_words in
      score + summary_overlap * 0.5
    else score in
  score + Qmin (fts_rank row / 100) 0.3.

Definition calculate_relevance_score (query : string) (row : FtsRow) : Q :=
  Qmin (relevance_sum query row) 1.

(** [clean_snippet] *)
Definition clean_snippet (snippet : option string) : string :=
  match snippet with
  | None => EmptyString
  | Some s =>
      if truthy s then
        let s := strip (collapse_spaces s) in
        if (len s >? 200)%Z then slice_to s 200 ++ "..." else s
      else EmptyString
  end.

(** The [SearchResult(...)] built for a row that cleared [min_score]. *)
Definition make_result (row : FtsRow) (cats : list string) (score : Q) : SearchResult :=
  let a := row_article row in
  mkSearchResult (art_id a) (art_article_id a) (art_title a) (summary_or_empty a)
                 (art_content a) cats score (clean_snippet (row_snippet row)).

(** The body of [for row in cursor.fetchall()]; [None] when [json.loads]
    raises. *)
Fixpoint search_rows (query : string) (min_score : Q) (rows : list FtsRow)
         (results : list SearchResult) : option (list SearchResult) :=
  match rows with
  | [] => Some results
  | row :: rest =>
      let relevance_score := calculate_relevance_score query row in
      if Qle_bool min_score relevance_score then
        match load_categories (row_article row) with
        | None => None
        | Some cats =>
            search_rows query min_score rest
                        (results ++ [make_result row cats relevance_score])%list
        end
      else search_rows query min_score rest results
  end.

(** [search]: a blank query and every exception give the empty list. *)
Definition search (store : CorpusStore) (query : string) (limit : Z)
           (min_score : Q) : list SearchResult :=
  if negb (truthy (strip query)) then []
  else
    let fts_query := prepare_fts_query query in
    match fts_match store fts_query limit with
    | None => []
    | Some rows =>
        match search_rows query min_score rows [] with
        | None => []
        | Some results => results
        end
    end.

(** The default [min_score=0.1]. *)
Definition default_min_score : Q := 0.1.

End WikipediaSearchEngine.

(* ------------------------------------------------------------------ *)
(** ** [WikipediaContextExtractor] *)

(** The dataclass [WikipediaContext]. *)
Record WikipediaContext : Type := mkContext {
  query : string;
  sources : list SearchResult;
  context_text : string;
  total_articles : Z;
  confidence_score : Q
}.

(** [sorted(l, key=lambda x: x.relevance_score, reverse=True)] and
    [l.sort(key=..., reverse=True)]: a stable sort, highest score first;
    entries with equal scores keep their order. *)
Fixpoint insert_desc (x : SearchResult) (l : list SearchResult) : list SearchResult :=
  match l with
  | [] => [x]
  | y :: l' =>
      if Qlt_bool (relevance_score x) (relevance_score y)
      then y :: insert_desc x l'
      else x :: l
  end.

Definition sort_desc (l : list SearchResult) : list SearchResult :=
  fold_right insert_desc [] l.

Module WikipediaContextExtractor.

Import WikipediaSearchEngine.

(** The loop of [select_best_articles]. *)
Fixpoint select_loop (sorted_results : list SearchResult) (max_articles : Z)
         (selected : list SearchResult) : list SearchResult :=
  match sorted_results with
  | [] => selected
  | result :: rest =>
      if (Z.of_nat (List.length selected) >=? max_articles)%Z then selected
      else if Qle_bool 0.2 (relevance_score result)
           then select_loop rest max_articles (selected ++ [result])%list
           else select_loop rest max_articles selected
  end.

Definition select_best_articles (search_results : list SearchResult)
           (max_articles : Z) : list SearchResult :=
  let sorted_results := sort_desc search_results in
  select_loop sorted_results max_articles [].

(** [article.summary if article.summary else article.content[:500]] *)
Definition article_text (article : SearchResult) : string :=
  if truthy (summary article) then summary article
  else slice_to (content article) 500.

(** [f"**{title}**\n{text}\n"] *)
Definition format_article (title text : string) : string :=
  "**" ++ title ++ "**" ++ nl ++ text ++ nl.

(** The loop of [build_context_text]; it returns [context_parts]. *)
Fixpoint build_loop (articles : list SearchResult) (max_length : Z)
         (context_parts : list string) (current_length : Z) : list string :=
  match articles with
  | [] => context_parts
  | article :: rest =>
      let text := article_text article in
      let article_context := format_article (title article) text in
      if (current_length + len article_context >? max_length)%Z then
        let remaining_length := (max_length - current_length - 50)%Z in
        if (remaining_length >? 100)%Z then
          let short_text := slice_to text remaining_length ++ "..." in
          let article_context := format_article (title article) short_text in
          (context_parts ++ [article_context])%list
        else context_parts
      else
        build_loop rest max_length (context_parts ++ [article_context])%list
                   (current_length + len article_context)%Z
  end.

Definition build_context_text (articles : list SearchResult) (max_length : Z) : string :=
  match articles with
  | [] => "No relevant information found."
  | _ =>
      let context_parts := build_loop articles max_length [] 0%Z in
      let source_list := join ", " (map title articles) in
      let context_text := join nl context_parts in
      context_text ++ nl ++ "*Sources: " ++ source_list ++ "*"
  end.

(** [sum(xs)]: left to right from [0]. *)
Definition py_sum (xs : list Q) : Q := fold_left Qplus xs 0.

(** The loop filling [covered_words]. *)
Definition cover_step (query_words : list string) (covered_words : list string)
           (article : SearchResult) : list string :=
  let article_words :=
    to_set (findall_words (lower (title article ++ " " ++ summary article))) in
  union covered_words (inter article_words query_words).

Definition calculate_confidence_score (articles : list SearchResult)
           (query : string) : Q :=
  match articles with
  | [] => 0
  | _ =>
      let n := inject_Z (Z.of_nat (List.length articles)) in
      let avg_relevance := py_sum (map relevance_score articles) / n in
      let article_factor := Qmin (n / 3) 1 in
      let query_words := to_set (findall_words (lower query)) in
      let covered_words := fold_left (cover_step query_words) articles [] in
      let coverage_factor :=
        match query_words with
        | [] => 0
        | _ => inject_Z (Z.of_nat (List.length covered_words))
               / inject_Z (Z.of_nat (List.length query_words))
        end in
      let confidence :=
        avg_relevance * 0.5 + article_factor * 0.3 + coverage_factor * 0.2 in
      Qmin confidence 1
  end.

Definition get_context_for_query (store : CorpusStore) (query : string)
           (max_length max_articles : Z) : WikipediaContext :=
  let search_results :=
    search store query (max_articles * 2)%Z default_min_score in
  match search_results with
  | [] => mkContext query [] "No relevant Wikipedia articles found." 0%Z 0
  | _ =>
      let selected_articles := select_best_articles search_results max_articles in
      let context_text := build_context_text selected_articles max_length in
      let confidence_score := calculate_confidence_score selected_articles query in
      mkContext query selected_articles context_text
                (Z.of_nat (List.length selected_articles)) confidence_score
  end.

End WikipediaContextExtractor.

(* ------------------------------------------------------------------ *)
(** ** [EnhancedWikipediaAPI] *)

(** The insertion-ordered [dict] from [article_id] to [SearchResult]. *)
Definition Dict : Type := list (string * SearchResult).

(** [k in d] *)
Definition dict_mem (k : string) (d : Dict) : bool :=
  existsb (fun kv => String.eqb (fst kv) k) d.

(** [d[k] = v]: a present key keeps its place and takes the new value, a new
    key goes last. *)
Fixpoint dict_set (k : string) (v : SearchResult) (d : Dict) : Dict :=
  match d with
  | [] => [(k, v)]
  | (k', v') :: d' =>
      if String.eqb k' k then (k', v) :: d' else (k', v') :: dict_set k v d'
  end.

(** [d.get(k)]: the lookup in which the properties of [all_results] are
    stated; the code itself only tests keys and assigns. *)
Fixpoint dict_get (k : string) (d : Dict) : option SearchResult :=
  match d with
  | [] => None
  | (k', v') :: d' => if String.eqb k' k then Some v' else dict_get k d'
  end.

(** [list(d.values())] *)
Definition dict_values (d : Dict) : list SearchResult := map snd d.

(** [l[:n]] on lists. *)
Definition list_slice_to {A : Type} (l : list A) (n : Z) : list A :=
  if (0 <=? n)%Z then firstn (Z.to_nat n) l
  else firstn (Z.to_nat (Z.of_nat (List.length l) + n)) l.

(** The entries of [status_log], with the values the messages interpolate. *)
Inductive LogEntry : Type :=
| LogGenerated (n : Z)
| LogSearching (q : string)
| LogFound (n : Z) (q : string)
| LogExactMatch (t : string)
| LogExactFailed
| LogKeyTermMatch (t : string)
| LogKeyTermFailed (term : string)
| LogReviewing (i total : Z) (t : string)
| LogRelevant (t : string) (score : Q)
| LogNotRelevant (t : string)
| LogFinalSelection (n : Z).

Module EnhancedWikipediaAPI.

Import WikipediaSearchEngine.

(** The de-duplication loop of [generate_search_queries]. *)
Fixpoint unique_loop (queries seen unique_queries : list string) : list string :=
  match queries with
  | [] => unique_queries
  | q :: rest =>
      if negb (mem (lower q) seen)
      then unique_loop rest (lower q :: seen) (unique_queries ++ [q])%list
      else unique_loop rest seen unique_queries
  end.

Definition generate_search_queries (question : string) : list string :=
  let queries := [strip question] in
  let words := findall_important question in
  let queries :=
    (queries ++ filter (fun word => (len word >? 3)%Z) (firstn 3 words))%list in
  let queries :=
    match words with
    | w0 :: w1 :: _ => (queries ++ [(w0 ++ " " ++ w1)%string])%list
    | _ => queries
    end in
  firstn 5 (unique_loop queries [] []).

Definition question_words : list string :=
  ["what"; "is"; "are"; "how"; "why"; "when"; "where"; "who"; "which";
   "the"; "a"; "an"].

Definition extract_key_terms (question : string) : list string :=
  let words := findall_alpha (lower question) in
  map capitalize
      (filter (fun word => negb (mem word question_words) && (len word >? 2)%Z)
              words).

(** [len(a & b) / len(a)] *)
Definition overlap_ratio (common qwords : list string) : Q :=
  inject_Z (Z.of_nat (List.length common)) / inject_Z (Z.of_nat (List.length qwords)).

(** The body of [for word in question_words] in [assess_article_relevance]. *)
Definition phrase_step (title_lower summary_lower : string) (score : Q)
           (word : string) : Q :=
  if (len word >? 4)%Z then
    let score := if contains word title_lower then score + 0.3 else score in
    if contains word summary_lower then score + 0.1 else score
  else score.

(** The value of [score] in [assess_article_relevance] before the cap. *)
Definition assess_sum (question : string) (article : SearchResult) : Q :=
  let question_lower := lower question in
  let title_lower := lower (title article) in
  let summary_lower := lower (summary article) in
  let score := 0 in
  let qwords := to_set (findall_words3 question_lower) in
  let title_words := to_set (findall_words3 title_lower) in
  let score :=
    match inter qwords title_words with
    | [] => score
    | common => score + overlap_ratio common qwords * 0.8
    end in
  let score :=
    if truthy summary_lower then
      let summary_words := to_set (findall_words3 summary_lower) in
      match inter qwords summary_words with
      | [] => score
      | common => score + overlap_ratio common qwords * 0.4
      end
    else score in
  let score := fold_left (phrase_step title_lower summary_lower) qwords score in
  if existsb (fun word => (len word >? 3)%Z && contains word title_lower) qwords
  then score + 0.2 else score.

Definition assess_article_relevance (question : string) (article : SearchResult) : Q :=
  Qmin (assess_sum question article) 1.

(** The local state of [search_with_multiple_queries]. *)
Record MergeState : Type := mkState {
  all_results : Dict;
  total_articles_found : Z;
  status_log : list LogEntry
}.

Definition log (e : LogEntry) (st : MergeState) : MergeState :=
  mkState (all_results st) (total_articles_found st) (status_log st ++ [e])%list.

(** [all_results[r.article_id] = r; total_articles_found += 1] *)
Definition store_result (r : SearchResult) (st : MergeState) : MergeState :=
  mkState (dict_set (article_id r) r (all_results st))
          (total_articles_found st + 1)%Z (status_log st).

(** [for result in results: if result.article_id not in all_results: ...] *)
Definition add_result (st : MergeState) (result : SearchResult) : MergeState :=
  if negb (dict_mem (article_id result) (all_results st))
  then store_result result st
  else st.

(** The body of [for i, query in enumerate(search_queries)]. *)
Definition search_step (store : CorpusStore) (limit : Z) (st : MergeState)
           (q : string) : MergeState :=
  let st := log (LogSearching q) st in
  let results := search store q limit 0.001 in
  let st := log (LogFound (Z.of_nat (List.length results)) q) st in
  fold_left add_result results st.

(** The [SearchResult(...)] built by both title lookups;
    [snippet = row['summary'][:200] if row['summary'] else '']. *)
Definition backstop_result (a : Article) (cats : list string) (score : Q) : SearchResult :=
  mkSearchResult (art_id a) (art_article_id a) (art_title a) (summary_or_empty a)
                 (art_content a) cats score (slice_to (summary_or_empty a) 200).

(** The exact-title lookup of the stripped question. *)
Definition exact_title_step (store : CorpusStore) (question : string)
           (st : MergeState) : MergeState :=
  match title_equals store (strip question) with
  | None => log LogExactFailed st
  | Some None => st
  | Some (Some exact_match) =>
      let st := log (LogExactMatch (art_title exact_match)) st in
      match load_categories exact_match with
      | None => log LogExactFailed st
      | Some cats =>
          let exact_result := backstop_result exact_match cats 1 in
          store_result exact_result st
      end
  end.

(** The body of [for term in key_terms]. *)
Definition key_term_step (store : CorpusStore) (st : MergeState)
           (term : string) : MergeState :=
  match title_equals store term with
  | None => log (LogKeyTermFailed term) st
  | Some None => st
  | Some (Some term_match) =>
      if negb (dict_mem (art_article_id term_match) (all_results st)) then
        let st := log (LogKeyTermMatch (art_title term_match)) st in
        match load_categories term_match with
        | None => log (LogKeyTermFailed term) st
        | Some cats =>
            let term_result := backstop_result term_match cats 0.9 in
            store_result term_result st
        end
      else st
  end.

(** The first stage: [all_results] after every query variant was searched. *)
Definition search_variants (store : CorpusStore) (question : string)
           (limit : Z) : MergeState :=
  let search_queries := generate_search_queries question in
  let st :=
    mkState [] 0%Z [LogGenerated (Z.of_nat (List.length search_queries))] in
  fold_left (search_step store limit) search_queries st.

(** The merge stage: every variant, then the two title backstops. *)
Definition merge (store : CorpusStore) (question : string) (limit : Z) : MergeState :=
  let st := search_variants store question limit in
  let st := exact_title_step store question st in
  fold_left (key_term_step store) (extract_key_terms question) st.

(** The review loop over [enumerate(final_results[:limit])]: the kept entries
    with their score replaced, and the log. *)
Fixpoint review_loop (question : string) (total : Z) (i : Z)
         (candidates reviewed : list SearchResult) (slog : list LogEntry)
  : list SearchResult * list LogEntry :=
  match candidates with
  | [] => (reviewed, slog)
  | result :: rest =>
      let slog := (slog ++ [LogReviewing (i + 1) total (title result)])%list in
      let relevance := assess_article_relevance question result in
      if Qlt_bool 0.05 relevance then
        let result := set_relevance_score result relevance in
        review_loop question total (i + 1)%Z rest (reviewed ++ [result])%list
                    (slog ++ [LogRelevant (title result) relevance])%list
      else
        review_loop question total (i + 1)%Z rest reviewed
                    (slog ++ [LogNotRelevant (title result)])%list
  end.

(** One entry of ["results"]. *)
Record ResultDict : Type := mkResultDict {
  rd_id : Z;
  rd_article_id : string;
  rd_title : string;
  rd_summary : string;
  rd_snippet : string;
  rd_categories : list string;
  rd_relevance_score : Q
}.

Definition to_result_dict (r : SearchResult) : ResultDict :=
  mkResultDict (id r) (article_id r) (title r) (summary r) (snippet r)
               (categories r) (relevance_score r).

(** The dictionary [search_with_multiple_queries] returns. *)
Record SearchResponse : Type := mkResponse {
  results : list ResultDict;
  total : Z;
  question : string;
  search_queries : list string;
  response_log : list LogEntry;
  total_articles_searched : Z
}.

(** [search_with_multiple_queries].  No statement of its [try] body can
    raise outside the inner handlers, so the outer [except] is never taken. *)
Definition search_with_multiple_queries (store : CorpusStore) (question : string)
           (limit : Z) : SearchResponse :=
  let st := merge store question limit in
  let final_results := sort_desc (dict_values (all_results st)) in
  let total := Z.min (Z.of_nat (List.length final_results)) limit in
  let '(reviewed_results, slog) :=
    review_loop question total 0%Z (list_slice_to final_results limit) []
                (status_log st) in
  let slog :=
    (slog ++ [LogFinalSelection (Z.of_nat (List.length reviewed_results))])%list in
  let result_dicts := map to_result_dict reviewed_results in
  mkResponse result_dicts (Z.of_nat (List.length result_dicts)) question
             (generate_search_queries question) slog (total_articles_found st).

End EnhancedWikipediaAPI.

(* ------------------------------------------------------------------ *)
(** ** Vocabulary of the properties *)

(** Highest score first. *)
Definition score_ge (a b : SearchResult) : Prop :=
  relevance_score b <= relevance_score a.

Definition rd_score_ge (a b : EnhancedWikipediaAPI.ResultDict) : Prop :=
  EnhancedWikipediaAPI.rd_relevance_score b <= EnhancedWikipediaAPI.rd_relevance_score a.

(** A backend row clears [min_score]. *)
Definition cleared (q : string) (min_score : Q) (row : FtsRow) : bool :=
  Qle_bool min_score (WikipediaSearchEngine.calculate_relevance_score q row).

(** The result [search] builds for a row whose categories load. *)
Definition hit (q : string) (row : FtsRow) : SearchResult :=
  WikipediaSearchEngine.make_result row
    (match load_categories (row_article row) with
     | Some cats => cats
     | None => []
     end)
    (WikipediaSearchEngine.calculate_relevance_score q row).

(** The hits that cleared [min_score], in the order of the backend. *)
Definition hits (q : string) (min_score : Q) (rows : list FtsRow) : list SearchResult :=
  map (hit q) (filter (cleared q min_score) rows).

(** The query shares no word token with the title nor with the summary. *)
Definition no_shared_tokens (q : string) (row : FtsRow) : Prop :=
  let qw := to_set (findall_words (lower q)) in
  inter qw (to_set (findall_words (lower (art_title (row_article row))))) = []
  /\ inter qw (to_set (findall_words (lower (summary_or_empty (row_article row))))) = [].

(** Keys are distinct and every value is filed under its own [article_id]. *)
Definition dict_wf (d : Dict) : Prop :=
  NoDup (map fst d) /\ Forall (fun kv => article_id (snd kv) = fst kv) d.

(** The review keeps a candidate, and the entry it then returns. *)
Definition kept (question : string) (r : SearchResult) : bool :=
  Qlt_bool 0.05 (EnhancedWikipediaAPI.assess_article_relevance question r).

Definition rescored (question : string) (r : SearchResult) : SearchResult :=
  set_relevance_score r (EnhancedWikipediaAPI.assess_article_relevance question r).

(** The merged candidates handed to the review: sorted, cut at [limit]. *)
Definition candidates (store : CorpusStore) (question : string) (limit : Z)
  : list SearchResult :=
  list_slice_to
    (sort_desc (dict_values (EnhancedWikipediaAPI.all_results
                               (EnhancedWikipediaAPI.merge store question limit))))
    limit.

(** A word occurs in the title or in the summary of some article. *)
Definition appears_in_any (articles : list SearchResult) (w : string) : bool :=
  existsb (fun a => mem w (findall_words (lower (title a)))
                    || mem w (findall_words (lower (summary a)))) articles.

(** The coverage ratio over the distinct question words of at least
    [min_len] characters. *)
Definition coverage_ratio (min_len : nat) (articles : list SearchResult)
           (question : string) : Q :=
  let qwords :=
    filter (fun w => (min_len <=? String.length w)%nat)
           (to_set (findall_words (lower question))) in
  match qwords with
  | [] => 0
  | _ => inject_Z (Z.of_nat (List.length (filter (appears_in_any articles) qwords)))
         / inject_Z (Z.of_nat (List.length qwords))
  end.

(** The confidence formula of the specification, section 4.6, with the
    minimal word length of the coverage ratio as a parameter: the
    specification asks for [min_len = 3]. *)
Definition confidence_formula (min_len : nat) (articles : list SearchResult)
           (question : string) : Q :=
  let n := inject_Z (Z.of_nat (List.length articles)) in
  let mean := WikipediaContextExtractor.py_sum (map relevance_score articles) / n in
  Qmax 0 (Qmin (0.5 * mean + 0.3 * Qmin (n / 3) 1
                + 0.2 * coverage_ratio min_len articles question) 1).

(* ------------------------------------------------------------------ *)
(** ** Sample corpora *)

Module Samples.

Definition warsaw : Article :=
  mkArticle 1 "warsaw" "Warsaw" (Some "Warsaw is the capital of Poland.")
            "Warsaw is the capital and largest city of Poland. It stands on the Vistula river."
            (CatJson ["Cities"]).

Definition poland : Article :=
  mkArticle 2 "poland" "Poland"
            (Some "Poland is a country in Central Europe; its capital is Warsaw.")
            "Poland is a country in Central Europe."
            (CatJson ["Countries"]).

Definition capital_punishment : Article :=
  mkArticle 3 "capital_punishment" "Capital punishment" (Some "The death penalty.")
            "Capital punishment is the death penalty."
            CatEmpty.

(** A corpus of three articles; the rows are listed as the full-text index
    over title, content and summary answers the prepared queries, worst
    [rank] first. *)
Definition corpus : CorpusStore :=
  mkStore
    (fun fts_query _ =>
       if String.eqb fts_query "poland" then
         Some [mkFtsRow warsaw (Some (-1)) None; mkFtsRow poland (Some (-2)) None]
       else if String.eqb fts_query "capital" then
         Some [mkFtsRow capital_punishment (Some (-1)) None;
               mkFtsRow warsaw (Some (-2)) None;
               mkFtsRow poland (Some (-3)) None]
       else if String.eqb fts_query "city" then
         Some [mkFtsRow warsaw (Some (-2)) None]
       else if String.eqb fts_query "capital AND city AND of AND poland" then
         Some [mkFtsRow warsaw (Some (-4)) None]
       else if String.eqb fts_query "largest AND city AND on AND the AND vistula" then
         Some [mkFtsRow warsaw (Some (-5)) None]
       else Some [])
    (fun t =>
       if String.eqb t "Warsaw" then Some (Some warsaw)
       else if String.eqb t "Poland" then Some (Some poland)
       else if String.eqb t "Capital punishment" then Some (Some capital_punishment)
       else Some None).

Definition lotr : Article :=
  mkArticle 1 "lotr" "Lord of the Rings"
            (Some "An epic fantasy novel by J. R. R. Tolkien.")
            "Sauron is the Dark Lord. Rings of Power were forged in Eregion."
            CatEmpty.

Definition hobbit : Article :=
  mkArticle 2 "hobbit" "The Hobbit"
            (Some "A fantasy novel for children.")
            "The Hobbit precedes the tale of the lord of the rings."
            CatEmpty.

(** A corpus of two articles queried with [limit = 1]: the index answers
    every variant of the question with its single worst-ranked match. *)
Definition shelf : CorpusStore :=
  mkStore
    (fun fts_query _ =>
       if String.eqb fts_query "lord AND of AND the AND rings" then
         Some [mkFtsRow hobbit (Some (-1)) None]
       else if String.eqb fts_query "lord" then Some [mkFtsRow hobbit (Some (-1)) None]
       else if String.eqb fts_query "rings" then Some [mkFtsRow hobbit (Some (-1)) None]
       else if String.eqb fts_query (dquote ++ "lord rings" ++ dquote) then
         Some [mkFtsRow lotr (Some (-4)) None]
       else Some [])
    (fun t =>
       if String.eqb t "Lord of the Rings" then Some (Some lotr)
       else if String.eqb t "The Hobbit" then Some (Some hobbit)
       else Some None).

(** A row whose title contains the query inside a longer word. *)
Definition party_row : FtsRow :=
  mkFtsRow (mkArticle 7 "party" "Party" None "A party is a gathering of people." CatEmpty)
           None None.

(** A row about an unrelated subject. *)
Definition database_row : FtsRow :=
  mkFtsRow (mkArticle 8 "database" "Database"
                      (Some "A database is an organized collection of structured information.")
                      "A database is an organized collection of structured information."
                      CatEmpty)
           None None.

(** The result of an exact hit on the article [poland]. *)
Definition poland_result : SearchResult :=
  mkSearchResult 2 "poland" "Poland"
                 "Poland is a country in Central Europe; its capital is Warsaw."
                 "Poland is a country in Central Europe." ["Countries"] 1 "".

End Samples.

(* ------------------------------------------------------------------ *)
(** ** Further methods of the two classes and their callers *)

Module Ancillary.

Import WikipediaSearchEngine.

(** The body of [for result in search_results[:max_snippets]] in
    [get_fact_snippets]. *)
Definition snippet_step (snippets : list string) (result : SearchResult) : list string :=
  if truthy (snippet result) && (len (snippet result) >? 20)%Z
  then (snippets ++ [(snippet result ++ " (Source: " ++ title result ++ ")")%string])%list
  else snippets.

(** [WikipediaContextExtractor.get_fact_snippets] *)
Definition get_fact_snippets (store : CorpusStore) (query : string)
           (max_snippets : Z) : list string :=
  let search_results :=
    search store query (max_snippets * 2)%Z default_min_score in
  fold_left snippet_step (list_slice_to search_results max_snippets) [].

(** The [dict] [category_counts], in insertion order. *)
Definition Counts : Type := list (string * Z).

(** [counts.get(category, 0)] *)
Fixpoint counts_get (category : string) (counts : Counts) : Z :=
  match counts with
  | [] => 0%Z
  | (c, n) :: rest => if String.eqb c category then n else counts_get category rest
  end.

(** [counts[category] = n] *)
Fixpoint counts_set (category : string) (n : Z) (counts : Counts) : Counts :=
  match counts with
  | [] => [(category, n)]
  | (c, m) :: rest =>
      if String.eqb c category then (c, n) :: rest
      else (c, m) :: counts_set category n rest
  end.

(** [category_counts[category] = category_counts.get(category, 0) + 1] *)
Definition count_category (counts : Counts) (category : string) : Counts :=
  counts_set category (counts_get category counts + 1)%Z counts.

(** The body of [for row in cursor.fetchall()]: a cell that [json.loads]
    rejects is skipped by the bare [except: continue]. *)
Definition count_row (counts : Counts) (cell : CategoriesCell) : Counts :=
  match cell with
  | CatJson cats => fold_left count_category cats counts
  | CatEmpty => counts
  | CatMalformed => counts
  end.

(** [sorted(items, key=lambda x: x[1], reverse=True)]: stable, highest count
    first. *)
Fixpoint insert_count (x : string * Z) (l : Counts) : Counts :=
  match l with
  | [] => [x]
  | y :: l' => if (snd x <? snd y)%Z then y :: insert_count x l' else x :: l
  end.

Definition sort_counts (l : Counts) : Counts := fold_right insert_count [] l.

(** [WikipediaSearchEngine.get_popular_categories]; [cells] is the
    [categories] column of the rows the statement returns, [None] when it
    raises. *)
Definition get_popular_categories (cells : option (list CategoriesCell))
           (limit : Z) : Counts :=
  match cells with
  | None => []
  | Some rows =>
      let category_counts := fold_left count_row rows [] in
      let sorted_categories := sort_counts category_counts in
      list_slice_to sorted_categories limit
  end.

(** The category names of a cell that loads, and of all the cells, with
    repetitions. *)
Definition cell_categories (cell : CategoriesCell) : list string :=
  match cell with
  | CatJson cats => cats
  | _ => []
  end.

Definition listed_categories (rows : list CategoriesCell) : list string :=
  flat_map cell_categories rows.

End Ancillary.

Module EnhancedContext.

Import EnhancedWikipediaAPI.

(** One entry of ["sources"] in [get_enhanced_context]. *)
Record SourceDict : Type := mkSourceDict {
  sd_id : Z;
  sd_article_id : string;
  sd_title : string;
  sd_summary : string;
  sd_relevance_score : Q
}.

Definition to_source_dict (article : ResultDict) : SourceDict :=
  mkSourceDict (rd_id article) (rd_article_id article) (rd_title article)
               (rd_summary article) (rd_relevance_score article).

(** The body of [for article in search_result["results"]]. *)
Definition context_step (max_length : Z) (acc : list string * list SourceDict)
           (article : ResultDict) : list string * list SourceDict :=
  let '(context_parts, sources) := acc in
  if (len (join " " context_parts) <? max_length)%Z then
    let context_parts :=
      if truthy (rd_summary article)
      then (context_parts
              ++ [("From " ++ rd_title article ++ ": " ++ rd_summary article)%string])%list
      else context_parts in
    (context_parts, (sources ++ [to_source_dict article])%list)
  else (context_parts, sources).

(** The dictionary [get_enhanced_context] returns. *)
Record ContextResponse : Type := mkContextResponse {
  context : string;
  ctx_sources : list SourceDict;
  confidence : Q;
  ctx_total_articles : Z;
  ctx_question : string;
  ctx_search_queries : list string;
  ctx_status_log : list LogEntry
}.

(** [get_enhanced_context]; the search never reports an error, so the
    early return is not taken. *)
Definition get_enhanced_context (store : CorpusStore) (question : string)
           (max_length : Z) : ContextResponse :=
  let search_result := search_with_multiple_queries store question 5 in
  let '(context_parts, sources) :=
    fold_left (context_step max_length) (results search_result) ([], []) in
  let context_text := join " " context_parts in
  let confidence :=
    match sources with
    | [] => 0
    | _ =>
        let avg_relevance :=
          WikipediaContextExtractor.py_sum (map sd_relevance_score sources)
          / inject_Z (Z.of_nat (List.length sources)) in
        Qmin (avg_relevance * 1.2) 1
    end in
  mkContextResponse (slice_to context_text max_length) sources confidence
                    (Z.of_nat (List.length sources)) question
                    (search_queries search_result) (response_log search_result).

End EnhancedContext.

(* ------------------------------------------------------------------ *)
(** ** Vocabulary of the further properties *)

(** [relevance_score >= 0.2], the test of [select_best_articles]. *)
Definition good_score (r : SearchResult) : bool := Qle_bool 0.2 (relevance_score r).

(** The untruncated block of an article in [build_context_text], and the
    characters the blocks of a list take. *)
Definition block (a : SearchResult) : string :=
  WikipediaContextExtractor.format_article
    (title a) (WikipediaContextExtractor.article_text a).

Definition blocks_length (articles : list SearchResult) : Z :=
  fold_right (fun a n => (len (block a) + n)%Z) 0%Z articles.

(** How far [total_articles_found] is ahead of the size of [all_results]. *)
Definition counted (st : EnhancedWikipediaAPI.MergeState) : Z :=
  (EnhancedWikipediaAPI.total_articles_found st
   - Z.of_nat (List.length (EnhancedWikipediaAPI.all_results st)))%Z.

(** Characters [str.lower] leaves alone; strings that are one word token. *)
Definition not_upper (c : ascii) : bool := negb (is_upper c).

Definition wordy (w : string) : Prop :=
  truthy w = true /\ forallb_chars is_word w = true.

(** The test and the line of [get_fact_snippets]. *)
Definition has_fact (r : SearchResult) : bool :=
  truthy (snippet r) && (len (snippet r) >? 20)%Z.

Definition fact_line (r : SearchResult) : string :=
  snippet r ++ " (Source: " ++ title r ++ ")".

(** How often a category is listed by the cells that load. *)
Definition occurrences (rows : list CategoriesCell) (category : string) : Z :=
  Z.of_nat (count_occ string_dec (Ancillary.listed_categories rows) category).

(** Highest count first. *)
Definition count_ge (a b : string * Z) : Prop := (snd b <= snd a)%Z.

(** [counts] holds exactly the categories of [seen], each once, with the
    number of times it occurs in [seen]. *)
Definition tallies (counts : Ancillary.Counts) (seen : list string) : Prop :=
  NoDup (map fst counts)
  /\ forall c n, In (c, n) counts
                 <-> In c seen /\ n = Z.of_nat (count_occ string_dec seen c).

(** Two results carry the score [s]: the classes within which a stable sort
    keeps the order. *)
Definition same_score (s : Q) (r : SearchResult) : bool :=
  Qeq_bool (relevance_score r) s.

(** The line [get_enhanced_context] adds for an article with a summary, the
    lines of a list of articles, and the text collected from them. *)
Definition context_line (article : EnhancedWikipediaAPI.ResultDict) : string :=
  "From " ++ EnhancedWikipediaAPI.rd_title article ++ ": "
  ++ EnhancedWikipediaAPI.rd_summary article.

Definition context_lines (articles : list EnhancedWikipediaAPI.ResultDict) : list string :=
  map context_line
      (filter (fun a => truthy (EnhancedWikipediaAPI.rd_summary a)) articles).

Definition collected (articles : list EnhancedWikipediaAPI.ResultDict) : string :=
  join " " (context_lines articles).

Module MoreSamples.

Import Samples.

Definition gdansk : Article :=
  mkArticle 4 "gdansk" "Gdansk" (Some "Gdansk is a port city in Poland.")
            "Gdansk is a port city on the Baltic coast of Poland."
            CatMalformed.

(** The rows of a corpus in which one article carries a [categories] text
    that is not JSON. *)
Definition damaged_rows : list FtsRow :=
  [mkFtsRow poland (Some (-2)) None; mkFtsRow gdansk (Some (-1)) None].

Definition damaged : CorpusStore :=
  mkStore
    (fun fts_query _ =>
       if String.eqb fts_query "poland" then Some damaged_rows else Some [])
    (fun _ => Some None).

(** The [categories] column of four rows. *)
Definition category_cells : list CategoriesCell :=
  [CatJson ["Cities"; "Poland"]; CatMalformed; CatJson ["Poland"]; CatJson []].

End MoreSamples.

(* ------------------------------------------------------------------ *)
(** * Properties *)

Import WikipediaSearchEngine WikipediaContextExtractor EnhancedWikipediaAPI Samples.

(** Closed goals are settled by evaluation; constant rationals by [lia] on
    their cross products. *)
Ltac evaluated := vm_compute; reflexivity.
Ltac q_const := unfold Qle; simpl; lia.

(** ** Arithmetic of scores *)

Lemma inject_nat_nonneg (n : nat) : 0 <= inject_Z (Z.of_nat n).
Proof. unfold Qle; simpl. lia. Qed.

Lemma Qdiv_nonneg (x y : Q) : 0 <= x -> 0 <= y -> 0 <= x / y.
Proof.
  intros Hx Hy. unfold Qdiv. apply Qmult_le_0_compat; [assumption|].
  now apply Qinv_le_0_compat.
Qed.

Lemma Qlt_bool_iff (x y : Q) : Qlt_bool x y = true <-> x < y.
Proof.
  unfold Qlt_bool. rewrite negb_true_iff. split.
  - intros H. apply Qnot_le_lt. intros Hle. apply Qle_bool_iff in Hle. congruence.
  - intros H. destruct (Qle_bool y x) eqn:E; [|reflexivity].
    apply Qle_bool_iff in E. exfalso. exact (Qlt_not_le _ _ H E).
Qed.

Lemma Qlt_bool_false (x y : Q) : Qlt_bool x y = false -> y <= x.
Proof.
  unfold Qlt_bool. rewrite negb_false_iff. apply Qle_bool_iff.
Qed.

Lemma fold_sum_nonneg (xs : list Q) :
  Forall (fun x => 0 <= x) xs -> forall acc, 0 <= acc -> 0 <= fold_left Qplus xs acc.
Proof.
  induction 1 as [|x xs Hx _ IH]; intros acc Hacc; simpl; [exact Hacc|].
  apply IH. lra.
Qed.

(** ** Lists *)

Lemma fold_left_inv {A S : Type} (P : S -> Prop) (f : S -> A -> S) (l : list A) :
  (forall s a, P s -> P (f s a)) -> forall s, P s -> P (fold_left f l s).
Proof.
  intros Hstep. induction l as [|a l IH]; intros s Hs; simpl; [exact Hs|].
  apply IH, Hstep, Hs.
Qed.

Lemma filter_all {A : Type} (f : A -> bool) (l : list A) :
  (forall x, f x = true) -> filter f l = l.
Proof.
  intros H. induction l as [|a l IH]; simpl; [reflexivity|]. now rewrite H, IH.
Qed.

Lemma firstn_In {A : Type} (n : nat) (l : list A) (x : A) :
  In x (firstn n l) -> In x l.
Proof.
  intros H. rewrite <- (firstn_skipn n l). apply in_or_app. now left.
Qed.

Lemma distinct_ids_firstn (n : nat) (rs : list SearchResult) :
  NoDup (map article_id rs) -> NoDup (map article_id (firstn n rs)).
Proof.
  intros H. rewrite <- (firstn_skipn n rs), map_app in H.
  now apply NoDup_app_remove_r in H.
Qed.

Lemma distinct_ids_filter (keep : SearchResult -> bool) (rs : list SearchResult) :
  NoDup (map article_id rs) -> NoDup (map article_id (filter keep rs)).
Proof.
  induction rs as [|a l IH]; simpl; [auto|].
  intros H. apply NoDup_cons_iff in H as [Hnotin Hnd].
  destruct (keep a); simpl; [|now apply IH].
  constructor; [|now apply IH].
  intros Hin. apply Hnotin. apply in_map_iff in Hin as [x [Hx Hin]].
  apply filter_In in Hin as [Hin _]. rewrite <- Hx. now apply in_map.
Qed.

Lemma StronglySorted_firstn {A : Type} (R : A -> A -> Prop) (n : nat) (l : list A) :
  StronglySorted R l -> StronglySorted R (firstn n l).
Proof.
  intros H. revert n. induction H as [|a l Hs IH Hall]; intros [|n]; simpl; try constructor.
  - apply IH.
  - rewrite Forall_forall in *. intros x Hx. apply Hall. eapply firstn_In; eassumption.
Qed.

Lemma StronglySorted_filter {A : Type} (R : A -> A -> Prop) (p : A -> bool) (l : list A) :
  StronglySorted R l -> StronglySorted R (filter p l).
Proof.
  induction 1 as [|a l Hs IH Hall]; simpl; [constructor|].
  destruct (p a); [|exact IH].
  constructor; [exact IH|].
  rewrite Forall_forall in *. intros x Hx. apply filter_In in Hx as [Hx _]. now apply Hall.
Qed.

(** ** Strings and tokens *)

Lemma length_append (a b : string) :
  String.length (a ++ b) = (String.length a + String.length b)%nat.
Proof.
  induction a as [|c a IH]; simpl; [reflexivity|now rewrite IH].
Qed.

Lemma lower_app (a b : string) : lower (a ++ b) = lower a ++ lower b.
Proof.
  unfold lower. induction a as [|x a IH]; simpl; [reflexivity|now rewrite IH].
Qed.

Lemma word_runs_cons (c : ascii) (s : string) :
  word_runs (String c s)
  = if is_word c then
      match s with
      | EmptyString => [String c EmptyString]
      | String d _ =>
          if is_word d then
            match word_runs s with
            | w :: ws => String c w :: ws
            | [] => [String c EmptyString]
            end
          else String c EmptyString :: word_runs s
      end
    else word_runs s.
Proof. reflexivity. Qed.

Lemma word_runs_head (c : ascii) (s : string) :
  is_word c = true -> word_runs (String c s) <> [].
Proof.
  intros Hc. simpl. rewrite Hc. destruct s as [|d s']; [discriminate|].
  destruct (is_word d); [|discriminate].
  destruct (word_runs (String d s')); discriminate.
Qed.

(** A separator that is not a word character splits the tokens of a
    concatenation. *)
Lemma word_runs_sep (c : ascii) (a b : string) :
  is_word c = false ->
  word_runs (a ++ String c b) = (word_runs a ++ word_runs b)%list.
Proof.
  intros Hc. induction a as [|x a IH].
  - change ("" ++ String c b) with (String c b). now rewrite word_runs_cons, Hc.
  - change (String x a ++ String c b) with (String x (a ++ String c b)).
    rewrite (word_runs_cons x (a ++ String c b)), (word_runs_cons x a).
    destruct (is_word x); [|exact IH].
    destruct a as [|d a'].
    + cbn [append]. now rewrite Hc, (word_runs_cons c b), Hc.
    + change (String d a' ++ String c b) with (String d (a' ++ String c b)) in *.
      rewrite IH. destruct (is_word d) eqn:Hd; [|reflexivity].
      pose proof (word_runs_head d a' Hd) as Hne.
      destruct (word_runs (String d a')) as [|w ws]; [congruence|reflexivity].
Qed.

(** The tokens of [title + " " + summary] are those of the title followed by
    those of the summary. *)
Lemma article_words (t s : string) :
  findall_words (lower (t ++ " " ++ s))
  = (findall_words (lower t) ++ findall_words (lower s))%list.
Proof.
  unfold findall_words. rewrite lower_app.
  change (lower (" " ++ s)) with (String " " (lower s)).
  now apply word_runs_sep.
Qed.

(** ** Sets of words *)

Lemma mem_In (w : string) (l : list string) : mem w l = true <-> In w l.
Proof.
  unfold mem. rewrite existsb_exists. split.
  - intros [x [Hin Heq]]. apply String.eqb_eq in Heq. now subst.
  - intros Hin. exists w. split; [exact Hin|apply String.eqb_refl].
Qed.

Lemma to_set_In (w : string) (l : list string) : In w (to_set l) <-> In w l.
Proof. apply nodup_In. Qed.

Lemma to_set_NoDup (l : list string) : NoDup (to_set l).
Proof. apply NoDup_nodup. Qed.

Lemma inter_In (w : string) (a b : list string) : In w (inter a b) <-> In w a /\ In w b.
Proof. unfold inter. rewrite filter_In, mem_In. tauto. Qed.

Lemma inter_NoDup (a b : list string) : NoDup a -> NoDup (inter a b).
Proof. apply NoDup_filter. Qed.

Lemma union_In (w : string) (a b : list string) : In w (union a b) <-> In w a \/ In w b.
Proof.
  unfold union. rewrite in_app_iff, filter_In, negb_true_iff. split.
  - tauto.
  - intros [Ha|Hb]; [now left|].
    destruct (mem w a) eqn:E; [left; now apply mem_In|right; now split].
Qed.

Lemma union_NoDup (a b : list string) : NoDup a -> NoDup b -> NoDup (union a b).
Proof.
  intros Ha Hb. unfold union. apply NoDup_app; [exact Ha|now apply NoDup_filter|].
  intros x Hx Hf. apply filter_In in Hf as [_ Hf]. apply negb_true_iff in Hf.
  apply mem_In in Hx. congruence.
Qed.

(** ** The stable descending sort *)

Lemma insert_desc_perm (x : SearchResult) (l : list SearchResult) :
  Permutation (insert_desc x l) (x :: l).
Proof.
  induction l as [|y l IH]; simpl; [reflexivity|].
  destruct (Qlt_bool _ _); [|reflexivity].
  rewrite IH. apply perm_swap.
Qed.

Lemma sort_desc_perm (l : list SearchResult) : Permutation (sort_desc l) l.
Proof.
  induction l as [|x l IH]; simpl; [reflexivity|].
  rewrite insert_desc_perm. now constructor.
Qed.

Lemma insert_desc_sorted (x : SearchResult) (l : list SearchResult) :
  StronglySorted score_ge l -> StronglySorted score_ge (insert_desc x l).
Proof.
  induction 1 as [|y l Hs IH Hall]; simpl.
  - repeat constructor.
  - destruct (Qlt_bool (relevance_score x) (relevance_score y)) eqn:E.
    + constructor; [exact IH|].
      rewrite (insert_desc_perm x l). constructor; [|exact Hall].
      apply Qlt_bool_iff in E. now apply Qlt_le_weak.
    + apply Qlt_bool_false in E.
      constructor; [now constructor|].
      constructor; [exact E|].
      eapply Forall_impl; [|exact Hall].
      intros z Hz. unfold score_ge in *. eapply Qle_trans; eauto.
Qed.

Lemma sort_desc_sorted (l : list SearchResult) : StronglySorted score_ge (sort_desc l).
Proof.
  induction l as [|x l IH]; simpl; [constructor|now apply insert_desc_sorted].
Qed.

(** A list already in descending order is left as it is: entries with equal
    scores are never swapped. *)
Lemma sort_desc_fixed (l : list SearchResult) :
  StronglySorted score_ge l -> sort_desc l = l.
Proof.
  induction 1 as [|a l Hs IH Hall]; simpl; [reflexivity|].
  rewrite IH. destruct l as [|y l']; simpl; [reflexivity|].
  apply Forall_inv in Hall. unfold score_ge in Hall.
  destruct (Qlt_bool (relevance_score a) (relevance_score y)) eqn:E; [|reflexivity].
  apply Qlt_bool_iff in E. exfalso. exact (Qlt_not_le _ _ E Hall).
Qed.

(** The sort is stable: within every class of equal scores the entries keep
    the order they had. *)
Lemma insert_desc_stable (s : Q) (x : SearchResult) (l : list SearchResult) :
  filter (same_score s) (insert_desc x l) = filter (same_score s) (x :: l).
Proof.
  induction l as [|y l IH]; [reflexivity|].
  cbn [insert_desc].
  destruct (Qlt_bool (relevance_score x) (relevance_score y)) eqn:E; [|reflexivity].
  cbn [filter] in *. rewrite IH.
  destruct (same_score s x) eqn:Ex; destruct (same_score s y) eqn:Ey; try reflexivity.
  exfalso. unfold same_score in *.
  apply Qeq_bool_iff in Ex. apply Qeq_bool_iff in Ey. apply Qlt_bool_iff in E.
  rewrite Ex, Ey in E. exact (Qlt_irrefl s E).
Qed.

Lemma sort_desc_stable (s : Q) (l : list SearchResult) :
  filter (same_score s) (sort_desc l) = filter (same_score s) l.
Proof.
  induction l as [|x l IH]; [reflexivity|].
  cbn [sort_desc fold_right]. fold (sort_desc l).
  rewrite insert_desc_stable. cbn [filter]. now rewrite IH.
Qed.

(* ------------------------------------------------------------------ *)
(** ** The relevance score of [calculate_relevance_score] *)

Lemma overlap_nonneg (qw ws : list string) : 0 <= overlap qw ws.
Proof.
  unfold overlap. destruct qw as [|w qw']; [apply Qle_refl|].
  apply Qdiv_nonneg; apply inject_nat_nonneg.
Qed.

Lemma overlap_disjoint (qw ws : list string) : inter qw ws = [] -> overlap qw ws == 0.
Proof.
  intros H. unfold overlap. rewrite H. destruct qw; [reflexivity|].
  simpl. unfold Qdiv. apply Qmult_0_l.
Qed.

Lemma fts_rank_nonneg (row : FtsRow) : 0 <= fts_rank row.
Proof.
  unfold fts_rank. destruct (row_rank row) as [r|]; [|apply Qle_refl].
  destruct (Qeq_bool r 0); [apply Qle_refl|apply Qabs_nonneg].
Qed.

Lemma rank_signal_nonneg (row : FtsRow) : 0 <= Qmin (fts_rank row / 100) 0.3.
Proof.
  apply Q.min_glb.
  - apply Qdiv_nonneg; [apply fts_rank_nonneg|]. q_const.
  - q_const.
Qed.

(** Every signal is non-negative, so the sum is at least the substring
    signal. *)
Lemma relevance_sum_ge (q : string) (row : FtsRow) :
  (if contains (lower q) (lower (art_title (row_article row))) then 1 else 0)
  <= relevance_sum q row.
Proof.
  unfold relevance_sum.
  set (qw := to_set (findall_words (lower q))).
  pose proof (overlap_nonneg qw (to_set (findall_words (lower (art_title (row_article row)))))) as Ht.
  pose proof (overlap_nonneg qw (to_set (findall_words (lower (summary_or_empty (row_article row)))))) as Hs.
  pose proof (rank_signal_nonneg row) as Hr.
  destruct (contains _ _); destruct (truthy _); lra.
Qed.

Lemma score_in_unit (q : string) (row : FtsRow) :
  0 <= calculate_relevance_score q row <= 1.
Proof.
  unfold calculate_relevance_score. split.
  - apply Q.min_glb; [|q_const].
    eapply Qle_trans; [|apply relevance_sum_ge].
    destruct (contains _ _); q_const.
  - apply Q.le_min_r.
Qed.

(** C7.  If the lowercased query occurs as a substring of the lowercased
    title, the sum of the signals before the cap is at least 1 and the
    returned score is exactly 1: the other signals are non-negative and the
    cap removes whatever they add. *)
Theorem exact_substring_scores_one (q : string) (row : FtsRow) :
  contains (lower q) (lower (art_title (row_article row))) = true ->
  1 <= relevance_sum q row /\ calculate_relevance_score q row == 1.
Proof.
  intros Hsub. pose proof (relevance_sum_ge q row) as Hge.
  rewrite Hsub in Hge. split; [exact Hge|].
  unfold calculate_relevance_score. now apply Q.min_r.
Qed.

Lemma exact_substring_scores_one_witness :
  contains (lower "Poland") (lower (art_title poland)) = true
  /\ 1 <= relevance_sum "Poland" (mkFtsRow poland (Some (-2)) None)
  /\ calculate_relevance_score "Poland" (mkFtsRow poland (Some (-2)) None) == 1.
Proof.
  split; [reflexivity|].
  apply (exact_substring_scores_one "Poland" (mkFtsRow poland (Some (-2)) None)).
  reflexivity.
Defined.

(** C8, as stated, fails: the query [art] shares no word token with the
    title [Party] (whose only token is [party]) and the row has no rank, yet
    the query occurs inside the title and the score is 1, not 0. *)
Lemma substring_scores_without_shared_token :
  no_shared_tokens "art" party_row
  /\ fts_rank party_row == 0
  /\ calculate_relevance_score "art" party_row == 1
  /\ ~ calculate_relevance_score "art" party_row == 0.
Proof.
  split; [split; reflexivity|].
  split; [reflexivity|].
  split; [evaluated|].
  vm_compute. discriminate.
Qed.

(** C8, amended.  The score always lies in [0,1]; it is 0 when the query
    shares no word token with the title nor the summary, the lowercased
    query does not occur as a substring of the lowercased title, and the
    rank signal is zero. *)
Theorem relevance_zero_without_signals (q : string) (row : FtsRow) :
  0 <= calculate_relevance_score q row <= 1 /\
  (no_shared_tokens q row ->
   contains (lower q) (lower (art_title (row_article row))) = false ->
   fts_rank row == 0 ->
   calculate_relevance_score q row == 0).
Proof.
  split; [apply score_in_unit|].
  intros [Ht Hs] Hsub Hrank.
  unfold calculate_relevance_score, relevance_sum. cbv zeta.
  rewrite Hsub.
  pose proof (overlap_disjoint _ _ Ht) as Ht0.
  pose proof (overlap_disjoint _ _ Hs) as Hs0.
  destruct (truthy _).
  - rewrite Ht0, Hs0, Hrank. evaluated.
  - rewrite Ht0, Hrank. evaluated.
Qed.

Lemma relevance_zero_without_signals_witness :
  no_shared_tokens "quantum" database_row
  /\ contains (lower "quantum") (lower (art_title (row_article database_row))) = false
  /\ fts_rank database_row == 0
  /\ calculate_relevance_score "quantum" database_row == 0.
Proof.
  assert (Hshared : no_shared_tokens "quantum" database_row) by (split; reflexivity).
  assert (Hsub : contains (lower "quantum")
                          (lower (art_title (row_article database_row))) = false)
    by reflexivity.
  assert (Hrank : fts_rank database_row == 0) by reflexivity.
  split; [exact Hshared|]. split; [exact Hsub|]. split; [exact Hrank|].
  exact (proj2 (relevance_zero_without_signals "quantum" database_row)
               Hshared Hsub Hrank).
Defined.

(* ------------------------------------------------------------------ *)
(** ** [search]: the hits in the order of the backend *)

Lemma search_rows_hits (query : string) (min_score : Q) (rows : list FtsRow) :
  Forall (fun row => load_categories (row_article row) <> None) rows ->
  forall acc, search_rows query min_score rows acc = Some (acc ++ hits query min_score rows)%list.
Proof.
  induction 1 as [|row rows Hrow _ IH]; intros acc; simpl.
  - now rewrite app_nil_r.
  - assert (Hstep : hits query min_score (row :: rows)
                    = if cleared query min_score row
                      then hit query row :: hits query min_score rows
                      else hits query min_score rows).
    { unfold hits. simpl. now destruct (cleared query min_score row). }
    rewrite Hstep. unfold cleared at 1.
    destruct (Qle_bool min_score (calculate_relevance_score query row)).
    + unfold hit at 1.
      destruct (load_categories (row_article row)) as [cats|]; [|congruence].
      rewrite IH, <- app_assoc. reflexivity.
    + apply IH.
Qed.

(** C2, as stated, fails: for the query [poland] the index lists [Warsaw]
    (score 0.51) before [Poland] (score 1), and [search] returns them in
    that order, lowest score first. *)
Lemma search_not_sorted_by_score :
  ~ StronglySorted score_ge (search corpus "poland" 10 default_min_score).
Proof.
  intros H.
  assert (E : map (fun r => Qred (relevance_score r))
                  (search corpus "poland" 10 default_min_score)
              = [0.51; 1]) by evaluated.
  destruct (search _ _ _ _) as [|a [|b l]]; try discriminate E.
  inversion E as [[Ea Eb El]].
  apply StronglySorted_inv in H as [_ Hall].
  apply Forall_inv in Hall. unfold score_ge in Hall.
  rewrite <- (Qred_correct (relevance_score a)),
          <- (Qred_correct (relevance_score b)), Ea, Eb in Hall.
  vm_compute in Hall. now apply Hall.
Qed.

(** C2, amended.  For a non-blank query whose backend rows load, [search]
    returns exactly the hits that cleared [min_score], each with its computed
    score, in the order the backend listed them; it does not sort. *)
Theorem search_keeps_backend_order (store : CorpusStore) (q : string) (limit : Z)
        (min_score : Q) (rows : list FtsRow) :
  truthy (strip q) = true ->
  fts_match store (prepare_fts_query q) limit = Some rows ->
  Forall (fun row => load_categories (row_article row) <> None) rows ->
  search store q limit min_score = hits q min_score rows.
Proof.
  intros Hq Hrows Hcats. unfold search. rewrite Hq, Hrows. simpl.
  now rewrite (search_rows_hits q min_score rows Hcats []).
Qed.

Lemma search_keeps_backend_order_witness :
  search corpus "poland" 10 default_min_score
  = hits "poland" default_min_score
         [mkFtsRow warsaw (Some (-1)) None; mkFtsRow poland (Some (-2)) None].
Proof.
  apply (search_keeps_backend_order corpus "poland" 10 default_min_score).
  - reflexivity.
  - reflexivity.
  - repeat constructor; discriminate.
Defined.

(* ------------------------------------------------------------------ *)
(** ** [get_context_for_query] *)





(** C5, as stated, fails: no single sentinel exists.  No candidate survives
    for either question, the first because the search finds nothing, the
    second because its only hit scores below 0.2; the two context texts
    differ. *)
Lemma no_single_sentinel :
  select_best_articles (search corpus "quantum" (5 * 2) default_min_score) 5 = []
  /\ select_best_articles
       (search corpus "largest city on the Vistula river" (5 * 2) default_min_score) 5 = []
  /\ context_text (get_context_for_query corpus "quantum" 2000 5)
     <> context_text (get_context_for_query corpus "largest city on the Vistula river" 2000 5).
Proof.
  split; [evaluated|].
  split; [evaluated|].
  vm_compute. discriminate.
Qed.

(** C5, amended.  When no candidate survives, the result has no sources, a
    confidence of 0 and one of two fixed texts: the one of
    [get_context_for_query] when the search returned nothing, the one of
    [build_context_text] when the search returned hits and none was
    selected.  The function is total: a failing backend is a search that
    returned nothing. *)
Theorem no_survivor_context (store : CorpusStore) (q : string)
        (max_length max_articles : Z) :
  select_best_articles (search store q (max_articles * 2) default_min_score)
                       max_articles = [] ->
  sources (get_context_for_query store q max_length max_articles) = []
  /\ confidence_score (get_context_for_query store q max_length max_articles) = 0
  /\ total_articles (get_context_for_query store q max_length max_articles) = 0%Z
  /\ context_text (get_context_for_query store q max_length max_articles)
     = match search store q (max_articles * 2) default_min_score with
       | [] => "No relevant Wikipedia articles found."
       | _ => "No relevant information found."
       end.
Proof.
  intros Hnone. unfold get_context_for_query.
  destruct (search store q (max_articles * 2) default_min_score) as [|r0 rs].
  - repeat split.
  - cbn [sources confidence_score total_articles context_text].
    rewrite Hnone. repeat split.
Qed.

Lemma no_survivor_context_witness :
  sources (get_context_for_query corpus "largest city on the Vistula river" 2000 5) = []
  /\ context_text (get_context_for_query corpus "largest city on the Vistula river" 2000 5)
     = "No relevant information found.".
Proof.
  destruct (no_survivor_context corpus "largest city on the Vistula river" 2000 5)
    as (H1 & _ & _ & H4).
  - reflexivity.
  - split; [exact H1|exact H4].
Defined.

(** The attribution line is appended whatever the budget is. *)
Lemma attribution_outside_budget (articles : list SearchResult) (max_length : Z) :
  articles <> [] ->
  (12 + len (join ", " (map title articles))
   <= len (build_context_text articles max_length))%Z.
Proof.
  intros Hne. unfold build_context_text. destruct articles as [|a l]; [congruence|].
  unfold len. rewrite !length_append. simpl String.length. lia.
Qed.

(** C1 fails on the code.  With a budget of 200 characters every selected
    article fits, block by block, and the returned text has 207 characters:
    the separators and the attribution line are not counted. *)
Theorem context_exceeds_budget :
  Forall (fun s => (len (format_article (title s) (article_text s)) <= 200)%Z)
         (sources (get_context_for_query corpus "capital" 200 5))
  /\ len (context_text (get_context_for_query corpus "capital" 200 5)) = 207%Z.
Proof.
  split; [|evaluated].
  vm_compute. repeat constructor; discriminate.
Qed.

(** *** The confidence score *)

Lemma covered_words_spec (qwords : list string) (articles : list SearchResult) :
  forall covered,
    NoDup covered ->
    NoDup (fold_left (cover_step qwords) articles covered)
    /\ (forall w, In w (fold_left (cover_step qwords) articles covered)
                  <-> In w covered \/ (In w qwords /\ appears_in_any articles w = true)).
Proof.
  induction articles as [|a articles IH]; intros covered Hnd; simpl.
  - split; [exact Hnd|]. intros w. split; [now left|]. intros [H|[_ H]]; [exact H|discriminate].
  - destruct (IH (cover_step qwords covered a)) as [H1 H2].
    { unfold cover_step. apply union_NoDup; [exact Hnd|]. apply inter_NoDup, to_set_NoDup. }
    split; [exact H1|]. intros w. rewrite H2. unfold cover_step.
    rewrite union_In, inter_In, to_set_In.
    assert (Hcons : appears_in_any (a :: articles) w = true
                    <-> In w (findall_words (lower (title a ++ " " ++ summary a)))
                        \/ appears_in_any articles w = true).
    { unfold appears_in_any. cbn [existsb].
      rewrite !orb_true_iff, !mem_In, article_words, in_app_iff. tauto. }
    rewrite Hcons. tauto.
Qed.

Lemma covered_words_length (qwords : list string) (articles : list SearchResult) :
  NoDup qwords ->
  List.length (fold_left (cover_step qwords) articles [])
  = List.length (filter (appears_in_any articles) qwords).
Proof.
  intros Hq. destruct (covered_words_spec qwords articles [] (NoDup_nil _)) as [Hnd Hin].
  apply Permutation_length, NoDup_Permutation; [exact Hnd|now apply NoDup_filter|].
  intros w. rewrite Hin, filter_In. simpl. tauto.
Qed.

Lemma code_coverage (articles : list SearchResult) (q : string) :
  match to_set (findall_words (lower q)) with
  | [] => 0
  | _ => inject_Z (Z.of_nat (List.length
                    (fold_left (cover_step (to_set (findall_words (lower q)))) articles [])))
         / inject_Z (Z.of_nat (List.length (to_set (findall_words (lower q)))))
  end = coverage_ratio 0 articles q.
Proof.
  unfold coverage_ratio. rewrite (filter_all (fun w => (0 <=? String.length w)%nat)) by reflexivity.
  rewrite covered_words_length by apply to_set_NoDup. reflexivity.
Qed.

Lemma coverage_ratio_nonneg (min_len : nat) (articles : list SearchResult) (q : string) :
  0 <= coverage_ratio min_len articles q.
Proof.
  unfold coverage_ratio. destruct (filter _ _); [apply Qle_refl|].
  apply Qdiv_nonneg; apply inject_nat_nonneg.
Qed.

Lemma py_sum_nonneg (articles : list SearchResult) :
  Forall (fun a => 0 <= relevance_score a) articles ->
  0 <= py_sum (map relevance_score articles).
Proof.
  intros H. unfold py_sum. apply fold_sum_nonneg; [|apply Qle_refl].
  rewrite Forall_map. exact H.
Qed.

(** C6, as stated, fails: for the question [go to Poland] and the article
    [Poland] the code counts the words [go] and [to] and returns 2/3, the
    formula over words of at least 3 characters gives 4/5. *)
Lemma confidence_ignores_min_length :
  [poland_result] <> []
  /\ Forall (fun a => 0 <= relevance_score a) [poland_result]
  /\ calculate_confidence_score [poland_result] "go to Poland" == 2 # 3
  /\ confidence_formula 3 [poland_result] "go to Poland" == 4 # 5
  /\ ~ calculate_confidence_score [poland_result] "go to Poland"
       == confidence_formula 3 [poland_result] "go to Poland".
Proof.
  split; [discriminate|].
  split; [repeat constructor; discriminate|].
  split; [evaluated|].
  split; [evaluated|].
  vm_compute. discriminate.
Qed.

(** C6, amended.  For a non-empty list of included candidates with
    non-negative scores, the confidence is the formula of the specification
    with the coverage ratio taken over all distinct question words, whatever
    their length; it lies in [0,1]. *)
Theorem confidence_counts_all_words (articles : list SearchResult) (q : string) :
  articles <> [] ->
  Forall (fun a => 0 <= relevance_score a) articles ->
  calculate_confidence_score articles q == confidence_formula 0 articles q
  /\ 0 <= calculate_confidence_score articles q <= 1.
Proof.
  intros Hne Hscores.
  assert (Heq : calculate_confidence_score articles q == confidence_formula 0 articles q).
  { unfold calculate_confidence_score, confidence_formula.
    destruct articles as [|a l]; [congruence|]. cbv zeta.
    rewrite code_coverage.
    set (n := inject_Z (Z.of_nat (List.length (a :: l)))).
    set (total := py_sum (map relevance_score (a :: l))).
    set (cov := coverage_ratio 0 (a :: l) q).
    assert (Hn : 0 <= n) by apply inject_nat_nonneg.
    assert (Htotal : 0 <= total / n) by (apply Qdiv_nonneg; [now apply py_sum_nonneg|exact Hn]).
    assert (Hcov : 0 <= cov) by apply coverage_ratio_nonneg.
    assert (Hfac : 0 <= Qmin (n / 3) 1).
    { apply Q.min_glb; [apply Qdiv_nonneg; [exact Hn|]|]; q_const. }
    assert (Hsame : total / n * 0.5 + Qmin (n / 3) 1 * 0.3 + cov * 0.2
                    == 0.5 * (total / n) + 0.3 * Qmin (n / 3) 1 + 0.2 * cov) by ring.
    rewrite Hsame. symmetry. apply Q.max_r.
    apply Q.min_glb; [lra|q_const]. }
  split; [exact Heq|]. rewrite Heq. unfold confidence_formula. split.
  - apply Q.le_max_l.
  - apply Q.max_lub; [q_const|apply Q.le_min_r].
Qed.

Lemma confidence_counts_all_words_witness :
  calculate_confidence_score [poland_result] "go to Poland"
  == confidence_formula 0 [poland_result] "go to Poland".
Proof.
  apply (confidence_counts_all_words [poland_result] "go to Poland").
  - discriminate.
  - repeat constructor; discriminate.
Defined.

(* ------------------------------------------------------------------ *)
(** ** [search_with_multiple_queries] *)

(** *** The dictionary *)

Lemma dict_mem_In (k : string) (d : Dict) : dict_mem k d = true <-> In k (map fst d).
Proof.
  unfold dict_mem. rewrite existsb_exists. split.
  - intros [[k' v] [Hin Heq]]. simpl in Heq. apply String.eqb_eq in Heq. subst.
    now apply (in_map fst) in Hin.
  - intros Hin. apply in_map_iff in Hin as [[k' v] [Heq Hin]]. simpl in Heq. subst.
    exists (k, v). split; [exact Hin|apply String.eqb_refl].
Qed.

Lemma dict_get_mem (k : string) (d : Dict) :
  dict_mem k d = true <-> exists v, dict_get k d = Some v.
Proof.
  induction d as [|[k0 v0] d IH]; simpl.
  - split; [discriminate|intros [v Hv]; discriminate].
  - destruct (String.eqb k0 k); simpl; [split; eauto|exact IH].
Qed.

Lemma dict_set_keys (k : string) (v : SearchResult) (d : Dict) :
  map fst (dict_set k v d)
  = if dict_mem k d then map fst d else (map fst d ++ [k])%list.
Proof.
  induction d as [|[k' v'] d IH]; simpl; [reflexivity|].
  destruct (String.eqb k' k) eqn:E; simpl; [reflexivity|].
  rewrite IH. fold (dict_mem k d). now destruct (dict_mem k d).
Qed.

Lemma dict_get_set_same (k : string) (v : SearchResult) (d : Dict) :
  dict_get k (dict_set k v d) = Some v.
Proof.
  induction d as [|[k' v'] d IH]; simpl.
  - now rewrite String.eqb_refl.
  - destruct (String.eqb k' k) eqn:E; simpl; rewrite E; [reflexivity|exact IH].
Qed.

Lemma dict_get_set_other (k k' : string) (v : SearchResult) (d : Dict) :
  k' <> k -> dict_get k' (dict_set k v d) = dict_get k' d.
Proof.
  intros Hne. induction d as [|[k0 v0] d IH]; simpl.
  - apply String.eqb_neq in Hne. rewrite String.eqb_sym. now rewrite Hne.
  - destruct (String.eqb k0 k) eqn:E; simpl.
    + apply String.eqb_eq in E. subst k0.
      assert (String.eqb k k' = false) as -> by (apply String.eqb_neq; congruence).
      reflexivity.
    + now rewrite IH.
Qed.

Lemma dict_set_values (k : string) (v : SearchResult) (d : Dict) :
  article_id v = k ->
  Forall (fun kv => article_id (snd kv) = fst kv) d ->
  Forall (fun kv => article_id (snd kv) = fst kv) (dict_set k v d).
Proof.
  intros Hv. induction 1 as [|[k' v'] d Hkv Hd IH]; simpl.
  - now repeat constructor.
  - destruct (String.eqb k' k) eqn:E.
    + apply String.eqb_eq in E. subst k'. constructor; [exact Hv|exact Hd].
    + constructor; [exact Hkv|exact IH].
Qed.

Lemma dict_set_wf (k : string) (v : SearchResult) (d : Dict) :
  article_id v = k -> dict_wf d -> dict_wf (dict_set k v d).
Proof.
  intros Hv [Hnd Hall]. split; [|now apply dict_set_values].
  rewrite dict_set_keys. destruct (dict_mem k d) eqn:E; [exact Hnd|].
  apply NoDup_app; [exact Hnd|repeat constructor; intros []|].
  intros x Hx [<-|[]]. apply dict_mem_In in Hx. congruence.
Qed.

Lemma dict_wf_values (d : Dict) :
  dict_wf d -> NoDup (map article_id (dict_values d)).
Proof.
  intros [Hnd Hall]. unfold dict_values. rewrite map_map.
  erewrite map_ext_in; [exact Hnd|].
  intros kv Hin. rewrite Forall_forall in Hall. now apply Hall.
Qed.

(** *** The merge stage keeps the dictionary well formed *)

Section Merge.

Variable store : CorpusStore.

Lemma store_result_wf (r : SearchResult) (st : MergeState) :
  dict_wf (all_results st) -> dict_wf (all_results (store_result r st)).
Proof. intros H. simpl. now apply dict_set_wf. Qed.

Lemma add_result_wf (st : MergeState) (r : SearchResult) :
  dict_wf (all_results st) -> dict_wf (all_results (add_result st r)).
Proof.
  intros H. unfold add_result.
  destruct (negb _); [now apply store_result_wf|exact H].
Qed.

Lemma search_step_wf (limit : Z) (st : MergeState) (q : string) :
  dict_wf (all_results st) -> dict_wf (all_results (search_step store limit st q)).
Proof.
  intros H. unfold search_step.
  apply (fold_left_inv (fun s => dict_wf (all_results s))); [apply add_result_wf|exact H].
Qed.

Lemma exact_title_step_wf (question : string) (st : MergeState) :
  dict_wf (all_results st) -> dict_wf (all_results (exact_title_step store question st)).
Proof.
  intros H. unfold exact_title_step.
  destruct (title_equals store (strip question)) as [[a|]|]; try exact H.
  destruct (load_categories a); [|exact H].
  now apply store_result_wf.
Qed.

Lemma key_term_step_wf (st : MergeState) (term : string) :
  dict_wf (all_results st) -> dict_wf (all_results (key_term_step store st term)).
Proof.
  intros H. unfold key_term_step.
  destruct (title_equals store term) as [[a|]|]; try exact H.
  destruct (negb _); [|exact H].
  destruct (load_categories a); [|exact H].
  now apply store_result_wf.
Qed.

Lemma merge_wf (question : string) (limit : Z) :
  dict_wf (all_results (merge store question limit)).
Proof.
  unfold merge, search_variants.
  apply (fold_left_inv (fun s => dict_wf (all_results s))); [apply key_term_step_wf|].
  apply exact_title_step_wf.
  apply (fold_left_inv (fun s => dict_wf (all_results s))); [apply search_step_wf|].
  split; constructor.
Qed.

(** Among the query variants and for the key terms the first occurrence
    wins: an entry that is present is never replaced. *)
Lemma add_result_keeps (st : MergeState) (x : SearchResult) (k : string) (r : SearchResult) :
  dict_get k (all_results st) = Some r ->
  dict_get k (all_results (add_result st x)) = Some r.
Proof.
  intros H. unfold add_result.
  destruct (dict_mem (article_id x) (all_results st)) eqn:E; simpl; [exact H|].
  rewrite dict_get_set_other; [exact H|].
  intros ->. assert (dict_mem (article_id x) (all_results st) = true); [|congruence].
  apply dict_get_mem. eauto.
Qed.

Lemma search_step_keeps (limit : Z) (st : MergeState)
      (q k : string) (r : SearchResult) :
  dict_get k (all_results st) = Some r ->
  dict_get k (all_results (search_step store limit st q)) = Some r.
Proof.
  intros H. unfold search_step.
  apply (fold_left_inv (fun s => dict_get k (all_results s) = Some r)); [|exact H].
  intros s x. apply add_result_keeps.
Qed.

Lemma key_term_step_keeps (st : MergeState)
      (term k : string) (r : SearchResult) :
  dict_get k (all_results st) = Some r ->
  dict_get k (all_results (key_term_step store st term)) = Some r.
Proof.
  intros H. unfold key_term_step.
  destruct (title_equals store term) as [[a|]|]; try exact H.
  destruct (dict_mem (art_article_id a) (all_results st)) eqn:E; simpl; [exact H|].
  destruct (load_categories a); [|exact H]. simpl.
  rewrite dict_get_set_other; [exact H|].
  intros ->. assert (dict_mem (art_article_id a) (all_results st) = true); [|congruence].
  apply dict_get_mem. eauto.
Qed.

(** *** The review *)

Lemma review_loop_fst (question : string) (total : Z) (candidates : list SearchResult) :
  forall i reviewed slog,
    fst (review_loop question total i candidates reviewed slog)
    = (reviewed ++ map (rescored question) (filter (kept question) candidates))%list.
Proof.
  induction candidates as [|r rest IH]; intros i reviewed slog; simpl.
  - now rewrite app_nil_r.
  - unfold kept at 1.
    destruct (Qlt_bool 0.05 (assess_article_relevance question r)).
    + rewrite IH. simpl. now rewrite <- app_assoc.
    + apply IH.
Qed.

Lemma results_eq (question : string) (limit : Z) :
  results (search_with_multiple_queries store question limit)
  = map to_result_dict
        (map (rescored question) (filter (kept question) (candidates store question limit))).
Proof.
  unfold search_with_multiple_queries.
  set (st := merge store question limit).
  set (final := sort_desc (dict_values (all_results st))).
  pose proof (review_loop_fst question (Z.min (Z.of_nat (List.length final)) limit)
                              (list_slice_to final limit) 0%Z [] (status_log st)) as H.
  destruct (review_loop _ _ _ _ _ _) as [reviewed slog]. simpl in H. subst reviewed.
  reflexivity.
Qed.

Lemma candidates_nodup (question : string) (limit : Z) :
  NoDup (map article_id (candidates store question limit)).
Proof.
  unfold candidates, list_slice_to.
  assert (H : NoDup (map article_id (sort_desc (dict_values (all_results (merge store question limit)))))).
  { eapply Permutation_NoDup.
    - apply Permutation_map, Permutation_sym, sort_desc_perm.
    - apply dict_wf_values, merge_wf. }
  destruct (0 <=? limit)%Z; now apply distinct_ids_firstn.
Qed.

Lemma candidates_sorted (question : string) (limit : Z) :
  StronglySorted score_ge (candidates store question limit).
Proof.
  unfold candidates, list_slice_to.
  destruct (0 <=? limit)%Z; apply StronglySorted_firstn, sort_desc_sorted.
Qed.

Lemma candidates_merged (question : string) (limit : Z) (r : SearchResult) :
  In r (candidates store question limit) ->
  In r (dict_values (all_results (merge store question limit))).
Proof.
  unfold candidates, list_slice_to. intros H.
  eapply Permutation_in; [apply sort_desc_perm|].
  destruct (0 <=? limit)%Z; eapply firstn_In; eassumption.
Qed.

End Merge.

(** C9.  The list returned by [search_with_multiple_queries] holds no two
    entries with the same [article_id]. *)
Theorem merged_results_have_distinct_ids (store : CorpusStore) (question : string) (limit : Z) :
  NoDup (map rd_article_id (results (search_with_multiple_queries store question limit))).
Proof.
  rewrite results_eq, !map_map. simpl.
  apply distinct_ids_filter, candidates_nodup.
Qed.

(** C3, as stated, fails: for [capital city of Poland] the entries come back
    with the reviewed scores 23/30, 1, 7/15. *)
Lemma reviewed_scores_not_descending :
  ~ StronglySorted rd_score_ge
      (results (search_with_multiple_queries corpus "capital city of Poland" 10)).
Proof.
  intros H.
  assert (E : map (fun r => Qred (rd_relevance_score r))
                  (results (search_with_multiple_queries corpus "capital city of Poland" 10))
              = [23 # 30; 1; 7 # 15]) by evaluated.
  destruct (results _) as [|a [|b l]]; try discriminate E.
  inversion E as [[Ea Eb El]].
  apply StronglySorted_inv in H as [_ Hall].
  apply Forall_inv in Hall. unfold rd_score_ge in Hall.
  rewrite <- (Qred_correct (rd_relevance_score a)),
          <- (Qred_correct (rd_relevance_score b)), Ea, Eb in Hall.
  vm_compute in Hall. now apply Hall.
Qed.

(** C3, amended.  The returned entries are exactly the merged candidates,
    sorted in descending order of the score they had before the review
    (a stable sort: a permutation, descending, equal scores in their merge
    order), cut at [limit], of which those whose reviewed score exceeds 0.05
    are kept, in that order, each carrying its reviewed score. *)
Theorem results_follow_merge_order (store : CorpusStore) (question : string) (limit : Z) :
  results (search_with_multiple_queries store question limit)
  = map (fun r => to_result_dict (rescored question r))
        (filter (kept question)
                (list_slice_to
                   (sort_desc (dict_values (all_results (merge store question limit))))
                   limit))
  /\ Permutation (sort_desc (dict_values (all_results (merge store question limit))))
                 (dict_values (all_results (merge store question limit)))
  /\ StronglySorted score_ge
                    (sort_desc (dict_values (all_results (merge store question limit))))
  /\ (forall s,
         filter (same_score s)
                (sort_desc (dict_values (all_results (merge store question limit))))
         = filter (same_score s) (dict_values (all_results (merge store question limit)))).
Proof.
  split; [|split; [|split]].
  - rewrite results_eq, map_map. reflexivity.
  - apply sort_desc_perm.
  - apply sort_desc_sorted.
  - intros s. apply sort_desc_stable.
Qed.

(** C4, as stated, fails: the article [Lord of the Rings] is first found by
    the variant [Lord Rings] with score 0.84, and the exact-title lookup
    replaces that entry by one with score 1. *)
Lemma exact_title_replaces_first_score :
  exists r r' : SearchResult,
    dict_get "lotr" (all_results (search_variants shelf "Lord of the Rings" 1)) = Some r
    /\ dict_get "lotr"
                (all_results (exact_title_step shelf "Lord of the Rings"
                                (search_variants shelf "Lord of the Rings" 1))) = Some r'
    /\ relevance_score r == 0.84
    /\ relevance_score r' == 1
    /\ ~ relevance_score r' == relevance_score r.
Proof.
  eexists. eexists.
  split; [evaluated|].
  split; [evaluated|].
  split; [evaluated|].
  split; [evaluated|].
  vm_compute. discriminate.
Qed.

(** C4, amended.  When the exact-title lookup of the stripped question finds
    an article whose categories load, the entry filed under its
    [article_id] is the match with score 1, whether or not an entry was
    present; every other entry is unchanged, and a present key keeps its
    place in the dictionary. *)
Theorem exact_title_match_overrides (store : CorpusStore) (question : string)
        (st : MergeState) (a : Article) (cats : list string) :
  title_equals store (strip question) = Some (Some a) ->
  load_categories a = Some cats ->
  dict_get (art_article_id a) (all_results (exact_title_step store question st))
  = Some (backstop_result a cats 1)
  /\ (forall k, k <> art_article_id a ->
                dict_get k (all_results (exact_title_step store question st))
                = dict_get k (all_results st))
  /\ map fst (all_results (exact_title_step store question st))
     = if dict_mem (art_article_id a) (all_results st)
       then map fst (all_results st)
       else (map fst (all_results st) ++ [art_article_id a])%list.
Proof.
  intros Hlookup Hcats. unfold exact_title_step. rewrite Hlookup, Hcats. simpl.
  split; [apply dict_get_set_same|].
  split; [intros k Hk; now apply dict_get_set_other|apply dict_set_keys].
Qed.

Lemma exact_title_match_overrides_witness :
  dict_get "lotr"
           (all_results (exact_title_step shelf "Lord of the Rings"
                           (search_variants shelf "Lord of the Rings" 1)))
  = Some (backstop_result lotr [] 1).
Proof.
  apply (exact_title_match_overrides shelf "Lord of the Rings"
           (search_variants shelf "Lord of the Rings" 1) lotr []).
  - reflexivity.
  - reflexivity.
Defined.

(* ------------------------------------------------------------------ *)
(** * Further properties *)

Import Ancillary EnhancedContext MoreSamples.

(** ** Characters, slices and tokens *)

Lemma take_length (n : nat) (s : string) : (String.length (take n s) <= n)%nat.
Proof.
  revert s. induction n as [|n IH]; intros [|c s]; simpl; try lia.
  specialize (IH s). lia.
Qed.

Lemma slice_to_length (s : string) (n : Z) :
  (0 <= n)%Z -> (len (slice_to s n) <= n)%Z.
Proof.
  intros Hn. unfold slice_to, len.
  destruct (Z.leb_spec 0 n) as [_|Hneg]; [|lia].
  pose proof (take_length (Z.to_nat n) s). lia.
Qed.

Lemma clean_snippet_length (raw : option string) :
  (len (clean_snippet raw) <= 203)%Z.
Proof.
  unfold clean_snippet. destruct raw as [s|]; [|simpl; unfold len; simpl; lia].
  destruct (truthy s); [|unfold len; simpl; lia].
  destruct (Z.gtb_spec (len (strip (collapse_spaces s))) 200) as [Hlong|Hshort]; [|lia].
  unfold len. rewrite length_append. simpl String.length.
  pose proof (slice_to_length (strip (collapse_spaces s)) 200 ltac:(lia)) as H.
  unfold len in H. lia.
Qed.

Lemma lower_char_not_upper (c : ascii) : not_upper (lower_char c) = true.
Proof. destruct c as [[] [] [] [] [] [] [] []]; reflexivity. Qed.

Lemma lower_char_fixed (c : ascii) : not_upper c = true -> lower_char c = c.
Proof. unfold not_upper, lower_char. now destruct (is_upper c). Qed.

Lemma lower_upper_char (c : ascii) : not_upper c = true -> lower_char (upper_char c) = c.
Proof. destruct c as [[] [] [] [] [] [] [] []]; (reflexivity || discriminate). Qed.

Lemma upper_char_alpha (c : ascii) : is_alpha c = true -> is_alpha (upper_char c) = true.
Proof. destruct c as [[] [] [] [] [] [] [] []]; (reflexivity || discriminate). Qed.

Lemma upper_char_twice (c : ascii) : upper_char (upper_char c) = upper_char c.
Proof. destruct c as [[] [] [] [] [] [] [] []]; reflexivity. Qed.

Lemma lower_char_alpha (c : ascii) : is_alpha c = true -> is_alpha (lower_char c) = true.
Proof. destruct c as [[] [] [] [] [] [] [] []]; (reflexivity || discriminate). Qed.

Lemma lower_cons (c : ascii) (s : string) :
  lower (String c s) = String (lower_char c) (lower s).
Proof. reflexivity. Qed.

Lemma lower_not_upper (s : string) : forallb_chars not_upper (lower s) = true.
Proof.
  unfold lower. induction s as [|c s IH]; simpl; [reflexivity|].
  now rewrite lower_char_not_upper.
Qed.

Lemma lower_fixed (s : string) : forallb_chars not_upper s = true -> lower s = s.
Proof.
  induction s as [|c s IH]; simpl; [reflexivity|].
  intros H. apply andb_true_iff in H as [Hc Hs].
  unfold lower in *. simpl. now rewrite (lower_char_fixed c Hc), IH.
Qed.

Lemma lower_alpha (s : string) :
  forallb_chars is_alpha s = true -> forallb_chars is_alpha (lower s) = true.
Proof.
  unfold lower. induction s as [|c s IH]; simpl; [reflexivity|].
  intros H. apply andb_true_iff in H as [Hc Hs].
  now rewrite (lower_char_alpha c Hc), IH.
Qed.

Lemma lower_length (s : string) : String.length (lower s) = String.length s.
Proof. unfold lower. induction s as [|c s IH]; simpl; [reflexivity|now rewrite IH]. Qed.

Lemma forallb_chars_app (p : ascii -> bool) (a b : string) :
  forallb_chars p (a ++ b) = forallb_chars p a && forallb_chars p b.
Proof.
  induction a as [|c a IH]; simpl; [reflexivity|]. now rewrite IH, andb_assoc.
Qed.

Lemma join_chars (p : ascii -> bool) (sep : string) (ws : list string) :
  forallb_chars p sep = true ->
  Forall (fun w => forallb_chars p w = true) ws ->
  forallb_chars p (join sep ws) = true.
Proof.
  intros Hsep. induction 1 as [|w ws Hw Hws IH]; [reflexivity|].
  destruct ws as [|w2 rest]; [exact Hw|].
  change (join sep (w :: w2 :: rest)) with (w ++ sep ++ join sep (w2 :: rest)).
  now rewrite !forallb_chars_app, Hw, Hsep, IH.
Qed.

(** The characters of a token are characters of the text. *)
Lemma word_runs_chars (p : ascii -> bool) (s : string) :
  forallb_chars p s = true ->
  Forall (fun w => forallb_chars p w = true) (word_runs s).
Proof.
  induction s as [|c s IH]; intros H; [constructor|].
  simpl in H. apply andb_true_iff in H as [Hc Hs]. specialize (IH Hs).
  rewrite word_runs_cons. destruct (is_word c); [|exact IH].
  destruct s as [|d s'].
  - repeat constructor. simpl. now rewrite Hc.
  - destruct (is_word d).
    + destruct (word_runs (String d s')) as [|w ws].
      * repeat constructor. simpl. now rewrite Hc.
      * apply Forall_cons_iff in IH as [Hw Hws]. constructor; [|exact Hws].
        simpl. now rewrite Hc, Hw.
    + constructor; [|exact IH]. simpl. now rewrite Hc.
Qed.

(** Every token is a non-empty run of word characters. *)
Lemma word_runs_wordy (s : string) : Forall wordy (word_runs s).
Proof.
  induction s as [|c s IH]; [constructor|].
  rewrite word_runs_cons. destruct (is_word c) eqn:Hc; [|exact IH].
  destruct s as [|d s'].
  - repeat constructor. simpl. now rewrite Hc.
  - destruct (is_word d).
    + destruct (word_runs (String d s')) as [|w ws].
      * repeat constructor. simpl. now rewrite Hc.
      * apply Forall_cons_iff in IH as [[_ Hw] Hws]. constructor; [|exact Hws].
        split; [reflexivity|]. simpl. now rewrite Hc, Hw.
    + constructor; [|exact IH]. split; [reflexivity|]. simpl. now rewrite Hc.
Qed.

Lemma word_runs_single (w : string) : wordy w -> word_runs w = [w].
Proof.
  intros [Hne Hw]. induction w as [|c w IH]; [discriminate|].
  simpl in Hw. apply andb_true_iff in Hw as [Hc Hrest].
  rewrite word_runs_cons, Hc. destruct w as [|d w']; [reflexivity|].
  assert (Hd : is_word d = true) by (simpl in Hrest; now apply andb_true_iff in Hrest).
  rewrite Hd, IH; [reflexivity|reflexivity|exact Hrest].
Qed.

Lemma word_runs_join (ws : list string) :
  Forall wordy ws -> word_runs (join " " ws) = ws.
Proof.
  induction 1 as [|w ws Hw Hws IH]; [reflexivity|].
  destruct ws as [|w2 rest].
  - simpl. now apply word_runs_single.
  - change (join " " (w :: w2 :: rest)) with (w ++ String " " (join " " (w2 :: rest))).
    rewrite word_runs_sep by reflexivity.
    now rewrite IH, (word_runs_single w Hw).
Qed.

Lemma word_runs_quoted (s : string) :
  word_runs (dquote ++ s ++ dquote) = word_runs s.
Proof.
  change (dquote ++ s ++ dquote) with (String (ascii_of_nat 34) (s ++ dquote)).
  rewrite word_runs_cons. change (is_word (ascii_of_nat 34)) with false. cbv iota.
  change dquote with (String (ascii_of_nat 34) EmptyString).
  rewrite word_runs_sep by reflexivity. simpl. apply app_nil_r.
Qed.

(* ------------------------------------------------------------------ *)
(** ** [prepare_fts_query] *)

(** X1.  Preparing a query of at most three word tokens twice gives what
    preparing it once gives: a query without tokens is returned as it is, a
    single token is returned lowercased, two or three tokens become one
    quoted phrase.  (With four tokens or more the operator [AND] of the
    result is itself read as a token.) *)
Theorem prepare_fts_query_idempotent (q : string) :
  (List.length (findall_words (lower q)) <= 3)%nat ->
  prepare_fts_query (prepare_fts_query q) = prepare_fts_query q.
Proof.
  intros Hshort.
  pose proof (word_runs_wordy (lower q)) as Hwordy.
  pose proof (word_runs_chars not_upper (lower q) (lower_not_upper q)) as Hlow.
  unfold findall_words in Hshort.
  destruct (word_runs (lower q)) as [|w [|w2 rest]] eqn:Hws.
  - assert (Hp : prepare_fts_query q = q)
      by (unfold prepare_fts_query, findall_words; now rewrite Hws).
    now rewrite Hp.
  - assert (Hp : prepare_fts_query q = w)
      by (unfold prepare_fts_query, findall_words; now rewrite Hws).
    rewrite Hp. apply Forall_inv in Hwordy. apply Forall_inv in Hlow.
    unfold prepare_fts_query, findall_words.
    now rewrite (lower_fixed w Hlow), (word_runs_single w Hwordy).
  - set (ws := w :: w2 :: rest) in *.
    assert (Hp : prepare_fts_query q = dquote ++ join " " ws ++ dquote).
    { unfold prepare_fts_query, findall_words. rewrite Hws. subst ws.
      destruct (Z.leb_spec (Z.of_nat (List.length (w :: w2 :: rest))) 3); [reflexivity|lia]. }
    rewrite Hp.
    assert (Hr : lower (dquote ++ join " " ws ++ dquote) = dquote ++ join " " ws ++ dquote).
    { apply lower_fixed.
      rewrite !forallb_chars_app, (join_chars not_upper " " ws eq_refl Hlow).
      reflexivity. }
    unfold prepare_fts_query, findall_words.
    rewrite Hr, word_runs_quoted, (word_runs_join ws Hwordy). subst ws.
    destruct (Z.leb_spec (Z.of_nat (List.length (w :: w2 :: rest))) 3); [reflexivity|lia].
Qed.

Lemma prepare_fts_query_idempotent_witness :
  (List.length (findall_words (lower "New York")) <= 3)%nat
  /\ prepare_fts_query (prepare_fts_query "New York") = prepare_fts_query "New York".
Proof.
  assert (H : (List.length (findall_words (lower "New York")) <= 3)%nat)
    by (vm_compute; lia).
  split; [exact H|exact (prepare_fts_query_idempotent "New York" H)].
Defined.

(* ------------------------------------------------------------------ *)
(** ** [search] and [clean_snippet] *)

Lemma search_rows_satisfy (q : string) (min_score : Q) (P : SearchResult -> Prop) :
  (forall row cats,
      min_score <= calculate_relevance_score q row ->
      P (make_result row cats (calculate_relevance_score q row))) ->
  forall rows acc res,
    Forall P acc ->
    search_rows q min_score rows acc = Some res ->
    Forall P res.
Proof.
  intros HP. induction rows as [|row rows IH]; intros acc res Hacc; simpl.
  - intros [= <-]. exact Hacc.
  - destruct (Qle_bool min_score (calculate_relevance_score q row)) eqn:E.
    + destruct (load_categories (row_article row)) as [cats|]; [|discriminate].
      apply IH. apply Forall_app. split; [exact Hacc|].
      constructor; [|constructor]. apply HP. now apply Qle_bool_iff.
    + now apply IH.
Qed.

Lemma search_results_satisfy (store : CorpusStore) (q : string) (limit : Z)
      (min_score : Q) (P : SearchResult -> Prop) :
  (forall row cats,
      min_score <= calculate_relevance_score q row ->
      P (make_result row cats (calculate_relevance_score q row))) ->
  Forall P (search store q limit min_score).
Proof.
  intros HP. unfold search. destruct (negb _); [constructor|].
  destruct (fts_match store (prepare_fts_query q) limit) as [rows|]; [|constructor].
  destruct (search_rows q min_score rows []) as [res|] eqn:E; [|constructor].
  eapply search_rows_satisfy; [exact HP|constructor|exact E].
Qed.

(** X2.  Every snippet [search] returns is at most 203 characters long: 200
    of the cleaned text and the ellipsis. *)
Theorem search_snippets_bounded (store : CorpusStore) (q : string) (limit : Z)
        (min_score : Q) :
  Forall (fun r => (len (snippet r) <= 203)%Z) (search store q limit min_score).
Proof.
  apply search_results_satisfy. intros row cats _. simpl. apply clean_snippet_length.
Qed.

(** X3.  Every result of [search] carries a score that is at least
    [min_score] and lies in [0,1], for every store and every query. *)
Theorem search_results_clear_min_score (store : CorpusStore) (q : string)
        (limit : Z) (min_score : Q) :
  Forall (fun r => min_score <= relevance_score r /\ 0 <= relevance_score r <= 1)
         (search store q limit min_score).
Proof.
  apply search_results_satisfy. intros row cats Hmin. simpl.
  split; [exact Hmin|apply score_in_unit].
Qed.

Lemma lstrip_blank (s : string) : forallb_chars is_space s = true -> lstrip s = "".
Proof.
  induction s as [|c s IH]; simpl; [reflexivity|].
  intros H. apply andb_true_iff in H as [Hc Hs]. rewrite Hc. now apply IH.
Qed.

(** X4.  A query made of white space only, and a backend whose full-text
    statement raises, both give the empty list. *)
Theorem search_blank_or_failing (store : CorpusStore) (q : string)
        (limit : Z) (min_score : Q) :
  forallb_chars is_space q = true
  \/ fts_match store (prepare_fts_query q) limit = None ->
  search store q limit min_score = [].
Proof.
  intros [Hblank|Hfail]; unfold search.
  - unfold strip. now rewrite (lstrip_blank q Hblank).
  - rewrite Hfail. now destruct (negb _).
Qed.

Lemma search_blank_or_failing_witness :
  forallb_chars is_space "   " = true
  /\ search corpus "   " 10 default_min_score = [].
Proof.
  assert (H : forallb_chars is_space "   " = true) by reflexivity.
  split; [exact H|].
  exact (search_blank_or_failing corpus "   " 10 default_min_score (or_introl H)).
Defined.

Lemma search_rows_malformed (q : string) (min_score : Q) (row : FtsRow) :
  cleared q min_score row = true ->
  art_categories (row_article row) = CatMalformed ->
  forall rows acc, In row rows -> search_rows q min_score rows acc = None.
Proof.
  intros Hclear Hbad. induction rows as [|r rows IH]; intros acc Hin; [destruct Hin|].
  destruct Hin as [Heq|Hin]; simpl.
  - subst r. unfold cleared in Hclear. rewrite Hclear.
    unfold load_categories. now rewrite Hbad.
  - destruct (Qle_bool min_score (calculate_relevance_score q r)).
    + destruct (load_categories (row_article r)); [now apply IH|reflexivity].
    + now apply IH.
Qed.

(** X5.  One row that clears [min_score] and whose [categories] text does
    not load empties the whole result: [json.loads] raises inside the loop
    and the handler returns the empty list, dropping the rows already
    collected. *)
Theorem malformed_categories_empty_search (store : CorpusStore) (q : string)
        (limit : Z) (min_score : Q) (rows : list FtsRow) (row : FtsRow) :
  fts_match store (prepare_fts_query q) limit = Some rows ->
  In row rows ->
  cleared q min_score row = true ->
  art_categories (row_article row) = CatMalformed ->
  search store q limit min_score = [].
Proof.
  intros Hrows Hin Hclear Hbad. unfold search. destruct (negb _); [reflexivity|].
  rewrite Hrows. now rewrite (search_rows_malformed q min_score row Hclear Hbad rows []).
Qed.

Lemma malformed_categories_empty_search_witness :
  cleared "poland" default_min_score (mkFtsRow gdansk (Some (-1)) None) = true
  /\ search damaged "poland" 10 default_min_score = [].
Proof.
  assert (H : cleared "poland" default_min_score (mkFtsRow gdansk (Some (-1)) None) = true)
    by reflexivity.
  split; [exact H|].
  apply (malformed_categories_empty_search damaged "poland" 10 default_min_score
           damaged_rows (mkFtsRow gdansk (Some (-1)) None)).
  - reflexivity.
  - right. left. reflexivity.
  - exact H.
  - reflexivity.
Defined.

(* ------------------------------------------------------------------ *)
(** ** [select_best_articles] and [build_context_text] *)

Lemma select_loop_closed (max_articles : Z) (sorted_results : list SearchResult) :
  forall selected,
    select_loop sorted_results max_articles selected
    = (selected
         ++ firstn (Z.to_nat (max_articles - Z.of_nat (List.length selected)))
                   (filter good_score sorted_results))%list.
Proof.
  induction sorted_results as [|r rest IH]; intros selected; simpl.
  - now rewrite firstn_nil, app_nil_r.
  - destruct (Z.geb_spec (Z.of_nat (List.length selected)) max_articles) as [Hfull|Hroom].
    + replace (Z.to_nat (max_articles - Z.of_nat (List.length selected))) with 0%nat by lia.
      simpl. now rewrite app_nil_r.
    + unfold good_score at 1. destruct (Qle_bool 0.2 (relevance_score r)).
      * rewrite IH, length_app, <- app_assoc. simpl.
        replace (Z.to_nat (max_articles - Z.of_nat (List.length selected)))
          with (S (Z.to_nat (max_articles - Z.of_nat (List.length selected + 1)))) by lia.
        reflexivity.
      * apply IH.
Qed.

(** X6.  [select_best_articles] returns the first [max_articles] of the
    results that score at least 0.2, taken in descending order of score
    (stable); the selection is itself in descending order. *)
Theorem select_best_articles_top (search_results : list SearchResult) (max_articles : Z) :
  select_best_articles search_results max_articles
  = firstn (Z.to_nat max_articles) (filter good_score (sort_desc search_results))
  /\ StronglySorted score_ge (select_best_articles search_results max_articles).
Proof.
  assert (H : select_best_articles search_results max_articles
              = firstn (Z.to_nat max_articles) (filter good_score (sort_desc search_results))).
  { unfold select_best_articles. rewrite select_loop_closed. simpl.
    now rewrite Z.sub_0_r. }
  split; [exact H|]. rewrite H.
  apply StronglySorted_firstn, StronglySorted_filter, sort_desc_sorted.
Qed.

Lemma blocks_length_nonneg (articles : list SearchResult) :
  (0 <= blocks_length articles)%Z.
Proof.
  induction articles as [|a rest IH]; [reflexivity|].
  change (blocks_length (a :: rest)) with (len (block a) + blocks_length rest)%Z.
  unfold len. lia.
Qed.

Lemma build_loop_fits (max_length : Z) (articles : list SearchResult) :
  forall parts current,
    (current + blocks_length articles <= max_length)%Z ->
    build_loop articles max_length parts current = (parts ++ map block articles)%list.
Proof.
  induction articles as [|a rest IH]; intros parts current Hfit; simpl.
  - now rewrite app_nil_r.
  - change (blocks_length (a :: rest)) with (len (block a) + blocks_length rest)%Z in Hfit.
    fold (block a). pose proof (blocks_length_nonneg rest) as Hrest.
    rewrite Z.gtb_ltb.
    destruct (Z.ltb_spec max_length (current + len (block a))) as [Hover|_]; [lia|].
    rewrite IH by lia. now rewrite <- app_assoc.
Qed.

(** X7.  When the blocks of all the articles together fit the budget, the
    context text holds every block in full, in order, followed by the
    attribution line: nothing is truncated or left out. *)
Theorem context_keeps_all_blocks_that_fit (articles : list SearchResult) (max_length : Z) :
  articles <> [] ->
  (blocks_length articles <= max_length)%Z ->
  build_context_text articles max_length
  = join nl (map block articles) ++ nl ++ "*Sources: "
    ++ join ", " (map title articles) ++ "*".
Proof.
  intros Hne Hfit. unfold build_context_text.
  destruct articles as [|a rest]; [congruence|].
  now rewrite build_loop_fits by lia.
Qed.

Lemma context_keeps_all_blocks_that_fit_witness :
  (blocks_length [poland_result] <= 2000)%Z
  /\ build_context_text [poland_result] 2000
     = join nl (map block [poland_result]) ++ nl ++ "*Sources: "
       ++ join ", " (map title [poland_result]) ++ "*".
Proof.
  assert (H : (blocks_length [poland_result] <= 2000)%Z) by (vm_compute; discriminate).
  split; [exact H|].
  apply (context_keeps_all_blocks_that_fit [poland_result] 2000); [discriminate|exact H].
Defined.

(** X8.  Whatever the budget is, the text is never shorter than the
    attribution line it ends with: 12 characters and the comma-joined
    titles of all the articles passed in. *)
Theorem context_never_below_attribution (articles : list SearchResult) (max_length : Z) :
  (12 + len (join ", " (map title articles))
   <= len (build_context_text articles max_length))%Z.
Proof.
  destruct articles as [|a rest].
  - vm_compute. discriminate.
  - apply attribution_outside_budget. discriminate.
Qed.

(* ------------------------------------------------------------------ *)
(** ** [generate_search_queries] and [extract_key_terms] *)

Lemma unique_loop_extends (queries : list string) :
  forall seen acc, exists tail, unique_loop queries seen acc = (acc ++ tail)%list.
Proof.
  induction queries as [|x queries IH]; intros seen acc; simpl.
  - exists []. now rewrite app_nil_r.
  - destruct (negb (mem (lower x) seen)); [|apply IH].
    destruct (IH (lower x :: seen) (acc ++ [x])%list) as [tail Htail].
    exists (x :: tail). now rewrite Htail, <- app_assoc.
Qed.

(** X9.  The query variants are at least one and at most five, and the first
    is the stripped question itself. *)
Theorem queries_start_with_question (question : string) :
  exists rest,
    generate_search_queries question = strip question :: rest
    /\ (List.length rest <= 4)%nat.
Proof.
  unfold generate_search_queries.
  set (extra := filter _ _).
  assert (H : forall more, exists tail,
               unique_loop ([strip question] ++ more)%list [] [] = strip question :: tail).
  { intros more. simpl.
    destruct (unique_loop_extends more [lower (strip question)] [strip question])
      as [tail Htail].
    exists tail. exact Htail. }
  destruct (findall_important question) as [|w0 [|w1 ws]].
  - destruct (H extra) as [tail ->]. exists (firstn 4 tail).
    split; [reflexivity|]. rewrite length_firstn. lia.
  - destruct (H extra) as [tail ->]. exists (firstn 4 tail).
    split; [reflexivity|]. rewrite length_firstn. lia.
  - rewrite <- app_assoc. destruct (H (extra ++ [(w0 ++ " " ++ w1)%string])%list) as [tail ->].
    exists (firstn 4 tail). split; [reflexivity|]. rewrite length_firstn. lia.
Qed.

Lemma unique_loop_distinct (queries : list string) :
  forall seen acc,
    (forall x, In x seen <-> In x (map lower acc)) ->
    NoDup (map lower acc) ->
    NoDup (map lower (unique_loop queries seen acc)).
Proof.
  induction queries as [|q queries IH]; intros seen acc Hseen Hnd; simpl; [exact Hnd|].
  destruct (mem (lower q) seen) eqn:E; simpl; [now apply IH|].
  apply IH.
  - intros x. rewrite map_app, in_app_iff. simpl. rewrite Hseen. tauto.
  - rewrite map_app. apply NoDup_app; [exact Hnd|repeat constructor; intros []|].
    intros x Hx [<-|[]]. apply Hseen, mem_In in Hx. congruence.
Qed.

Lemma firstn_keeps_distinct (n : nat) (qs : list string) :
  NoDup (map lower qs) -> NoDup (map lower (firstn n qs)).
Proof.
  intros H. rewrite <- (firstn_skipn n qs), map_app in H.
  now apply NoDup_app_remove_r in H.
Qed.

(** X10.  No two query variants are equal up to case. *)
Theorem queries_differ_ignoring_case (question : string) :
  NoDup (map lower (generate_search_queries question)).
Proof.
  unfold generate_search_queries. apply firstn_keeps_distinct.
  apply unique_loop_distinct; [|constructor].
  intros x. simpl. tauto.
Qed.

Lemma capitalize_lower (w : string) :
  forallb_chars not_upper w = true -> lower (capitalize w) = w.
Proof.
  destruct w as [|c w]; [reflexivity|].
  intros H. simpl in H. apply andb_true_iff in H as [Hc Hw].
  unfold capitalize. rewrite lower_cons.
  now rewrite (lower_upper_char c Hc), (lower_fixed (lower w) (lower_not_upper w)),
              (lower_fixed w Hw).
Qed.

Lemma capitalize_twice (w : string) : capitalize (capitalize w) = capitalize w.
Proof.
  destruct w as [|c w]; [reflexivity|]. unfold capitalize.
  now rewrite upper_char_twice, (lower_fixed (lower w) (lower_not_upper w)).
Qed.

Lemma capitalize_alpha (w : string) :
  forallb_chars is_alpha w = true -> forallb_chars is_alpha (capitalize w) = true.
Proof.
  destruct w as [|c w]; [reflexivity|].
  intros H. simpl in H. apply andb_true_iff in H as [Hc Hw].
  unfold capitalize. cbn [forallb_chars].
  now rewrite (upper_char_alpha c Hc), (lower_alpha w Hw).
Qed.

Lemma capitalize_length (w : string) : String.length (capitalize w) = String.length w.
Proof.
  destruct w as [|c w]; [reflexivity|]. unfold capitalize.
  cbn [String.length]. now rewrite lower_length.
Qed.

(** X11.  Every key term has at least three characters, all of them letters,
    is in capitalized form, and is not one of the twelve question words. *)
Theorem key_terms_are_capitalized_content_words (question : string) :
  Forall (fun term =>
            (3 <= String.length term)%nat
            /\ forallb_chars is_alpha term = true
            /\ capitalize term = term
            /\ mem (lower term) question_words = false)
         (extract_key_terms question).
Proof.
  unfold extract_key_terms. rewrite Forall_map, Forall_forall.
  intros w Hw. apply filter_In in Hw as [Hin Hkeep].
  apply andb_true_iff in Hkeep as [Hstop Hlen].
  unfold findall_alpha in Hin. apply filter_In in Hin as [Hrun Halpha].
  pose proof (word_runs_chars not_upper (lower question) (lower_not_upper question)) as Hlow.
  rewrite Forall_forall in Hlow. specialize (Hlow w Hrun).
  split; [|split; [|split]].
  - rewrite capitalize_length. unfold len in Hlen. rewrite Z.gtb_ltb in Hlen.
    apply Z.ltb_lt in Hlen. lia.
  - now apply capitalize_alpha.
  - apply capitalize_twice.
  - rewrite (capitalize_lower w Hlow). now apply negb_true_iff.
Qed.

(* ------------------------------------------------------------------ *)
(** ** [assess_article_relevance] and the review *)

Lemma overlap_ratio_nonneg (common qwords : list string) : 0 <= overlap_ratio common qwords.
Proof. unfold overlap_ratio. apply Qdiv_nonneg; apply inject_nat_nonneg. Qed.

Lemma phrase_fold_nonneg (title_lower summary_lower : string) (words : list string) :
  forall score, 0 <= score ->
                0 <= fold_left (phrase_step title_lower summary_lower) words score.
Proof.
  induction words as [|w words IH]; intros score Hs; simpl; [exact Hs|].
  apply IH. unfold phrase_step.
  destruct (len w >? 4)%Z; [|exact Hs].
  destruct (contains w title_lower); destruct (contains w summary_lower); lra.
Qed.

Lemma add_overlap_nonneg (score weight : Q) (common qwords : list string) :
  0 <= weight -> 0 <= score ->
  0 <= match common with
       | [] => score
       | c :: cs => score + overlap_ratio (c :: cs) qwords * weight
       end.
Proof.
  intros Hw Hs. destruct common as [|c cs]; [exact Hs|].
  pose proof (overlap_ratio_nonneg (c :: cs) qwords) as Hr.
  assert (0 <= overlap_ratio (c :: cs) qwords * weight) by now apply Qmult_le_0_compat.
  lra.
Qed.

Lemma assess_sum_nonneg (question : string) (article : SearchResult) :
  0 <= assess_sum question article.
Proof.
  unfold assess_sum. cbv zeta.
  match goal with
  | |- 0 <= (if ?b then fold_left ?f ?l ?s + 0.2 else fold_left ?f ?l ?s) =>
      assert (H : 0 <= fold_left f l s); [apply phrase_fold_nonneg|destruct b; lra]
  end.
  destruct (truthy _).
  - apply add_overlap_nonneg; [q_const|]. apply add_overlap_nonneg; q_const.
  - apply add_overlap_nonneg; q_const.
Qed.

(** X12.  The reviewed score lies in [0,1] for every question and article. *)
Theorem reviewed_score_in_unit (question : string) (article : SearchResult) :
  0 <= assess_article_relevance question article <= 1.
Proof.
  unfold assess_article_relevance. split.
  - apply Q.min_glb; [apply assess_sum_nonneg|q_const].
  - apply Q.le_min_r.
Qed.

Lemma assess_without_words (question : string) (article : SearchResult) :
  findall_words3 (lower question) = [] ->
  kept question article = false.
Proof.
  intros H. unfold kept, assess_article_relevance, assess_sum. rewrite H. simpl.
  destruct (truthy _); reflexivity.
Qed.

(** X13.  A question without any word of three characters or more gets no
    result, whatever the corpus holds: every candidate is reviewed at score
    0 and dropped. *)
Theorem short_questions_find_nothing (store : CorpusStore) (question : string) (limit : Z) :
  findall_words3 (lower question) = [] ->
  results (search_with_multiple_queries store question limit) = [].
Proof.
  intros H. rewrite results_eq.
  replace (filter (kept question) (candidates store question limit)) with (@nil SearchResult);
    [reflexivity|].
  symmetry. induction (candidates store question limit) as [|r rs IH]; simpl; [reflexivity|].
  now rewrite (assess_without_words question r H).
Qed.

Lemma short_questions_find_nothing_witness :
  findall_words3 (lower "Is it so?") = []
  /\ results (search_with_multiple_queries corpus "Is it so?" 10) = [].
Proof.
  assert (H : findall_words3 (lower "Is it so?") = []) by reflexivity.
  split; [exact H|exact (short_questions_find_nothing corpus "Is it so?" 10 H)].
Defined.

Lemma results_length_le (store : CorpusStore) (question : string) (limit : Z) :
  (0 <= limit)%Z ->
  (List.length (results (search_with_multiple_queries store question limit))
   <= Z.to_nat limit)%nat.
Proof.
  intros Hlimit. rewrite results_eq, !length_map.
  pose proof (filter_length_le (kept question) (candidates store question limit)) as Hf.
  assert (Hc : (List.length (candidates store question limit) <= Z.to_nat limit)%nat).
  { unfold candidates, list_slice_to.
    destruct (Z.leb_spec 0 limit) as [_|Hneg]; [|lia].
    rewrite length_firstn. lia. }
  lia.
Qed.

Lemma results_scored (store : CorpusStore) (question : string) (limit : Z) :
  Forall (fun r => 0.05 < rd_relevance_score r /\ rd_relevance_score r <= 1)
         (results (search_with_multiple_queries store question limit)).
Proof.
  rewrite results_eq, map_map, Forall_map, Forall_forall. intros r Hr.
  apply filter_In in Hr as [_ Hk]. simpl. split.
  - now apply Qlt_bool_iff.
  - unfold assess_article_relevance. apply Q.le_min_r.
Qed.

(** X14.  For a limit that is not negative, at most [limit] entries are
    returned, and each carries a reviewed score above 0.05 and at most 1. *)
Theorem results_within_limit (store : CorpusStore) (question : string) (limit : Z) :
  (0 <= limit)%Z ->
  (Z.of_nat (List.length (results (search_with_multiple_queries store question limit)))
   <= limit)%Z
  /\ Forall (fun r => 0.05 < rd_relevance_score r /\ rd_relevance_score r <= 1)
            (results (search_with_multiple_queries store question limit)).
Proof.
  intros Hlimit. split; [|apply results_scored].
  pose proof (results_length_le store question limit Hlimit). lia.
Qed.

Lemma results_within_limit_witness :
  (Z.of_nat (List.length
               (results (search_with_multiple_queries corpus "capital city of Poland" 2)))
   <= 2)%Z.
Proof.
  apply (results_within_limit corpus "capital city of Poland" 2). discriminate.
Defined.

(* ------------------------------------------------------------------ *)
(** ** The merge stage *)

(** X15.  An article whose title is the stripped question, found by the
    exact-title lookup with categories that load, is among the merged
    candidates with score 1, whatever the variants found and whatever the
    key terms add. *)
Theorem exact_title_match_is_merged (store : CorpusStore) (question : string)
        (limit : Z) (a : Article) (cats : list string) :
  title_equals store (strip question) = Some (Some a) ->
  load_categories a = Some cats ->
  dict_get (art_article_id a) (all_results (merge store question limit))
  = Some (backstop_result a cats 1).
Proof.
  intros Hlookup Hcats. unfold merge.
  apply (fold_left_inv
           (fun s => dict_get (art_article_id a) (all_results s)
                     = Some (backstop_result a cats 1))).
  - intros s term. apply key_term_step_keeps.
  - unfold exact_title_step. rewrite Hlookup, Hcats. simpl. apply dict_get_set_same.
Qed.

Lemma exact_title_match_is_merged_witness :
  dict_get "poland" (all_results (merge corpus "Poland" 10))
  = Some (backstop_result poland ["Countries"] 1).
Proof.
  apply (exact_title_match_is_merged corpus "Poland" 10 poland ["Countries"]);
    reflexivity.
Defined.

(** X16.  An entry found by a query variant is the entry the merge ends
    with, score included, unless the exact-title lookup returns the same
    article: the key-term lookups never replace it. *)
Theorem variant_entries_survive (store : CorpusStore) (question : string)
        (limit : Z) (k : string) (r : SearchResult) :
  dict_get k (all_results (search_variants store question limit)) = Some r ->
  (forall a, title_equals store (strip question) = Some (Some a) -> art_article_id a <> k) ->
  dict_get k (all_results (merge store question limit)) = Some r.
Proof.
  intros Hfound Hother. unfold merge.
  apply (fold_left_inv (fun s => dict_get k (all_results s) = Some r)).
  - intros s term. apply key_term_step_keeps.
  - unfold exact_title_step.
    destruct (title_equals store (strip question)) as [[a|]|] eqn:E; try exact Hfound.
    destruct (load_categories a); [|exact Hfound]. simpl.
    rewrite dict_get_set_other; [exact Hfound|].
    intros ->. now apply (Hother a).
Qed.

Lemma variant_entries_survive_witness :
  dict_get "warsaw" (all_results (merge corpus "capital city of Poland" 10))
  = dict_get "warsaw" (all_results (search_variants corpus "capital city of Poland" 10)).
Proof.
  assert (H : dict_get "warsaw"
                (all_results (search_variants corpus "capital city of Poland" 10))
              = Some (hit "capital city of Poland" (mkFtsRow warsaw (Some (-4)) None)))
    by (evaluated).
  rewrite H.
  apply (variant_entries_survive corpus "capital city of Poland" 10 "warsaw").
  - exact H.
  - intros a Ha. vm_compute in Ha. discriminate Ha.
Defined.

Lemma dict_set_length (k : string) (v : SearchResult) (d : Dict) :
  List.length (dict_set k v d)
  = if dict_mem k d then List.length d else S (List.length d).
Proof.
  rewrite <- (length_map fst (dict_set k v d)), dict_set_keys.
  destruct (dict_mem k d); [apply length_map|].
  rewrite length_app, length_map. simpl. lia.
Qed.

Lemma add_result_counted (st : MergeState) (r : SearchResult) :
  counted (add_result st r) = counted st.
Proof.
  unfold add_result, counted.
  destruct (dict_mem (article_id r) (all_results st)) eqn:E; simpl; [reflexivity|].
  rewrite dict_set_length, E. lia.
Qed.

Lemma search_step_counted (store : CorpusStore) (limit : Z) (st : MergeState) (q : string) :
  counted (search_step store limit st q) = counted st.
Proof.
  unfold search_step.
  set (st0 := log _ (log _ st)).
  change (counted st) with (counted st0).
  generalize st0. clear st0.
  induction (search store q limit 0.001) as [|r rs IH]; intros st0; simpl; [reflexivity|].
  now rewrite IH, add_result_counted.
Qed.

Lemma key_term_step_counted (store : CorpusStore) (st : MergeState) (term : string) :
  counted (key_term_step store st term) = counted st.
Proof.
  unfold key_term_step.
  destruct (title_equals store term) as [[a|]|]; try reflexivity.
  destruct (dict_mem (art_article_id a) (all_results st)) eqn:E; simpl; [reflexivity|].
  destruct (load_categories a); [|reflexivity].
  unfold counted. simpl. rewrite dict_set_length, E. lia.
Qed.

(** X17.  The counter returned as [total_articles_searched] is the number of
    merged articles or that number plus one: the exact-title block counts
    the article it files even when it replaces an entry. *)
Theorem found_counter_overcounts_by_at_most_one (store : CorpusStore)
        (question : string) (limit : Z) :
  (0 <= total_articles_searched (search_with_multiple_queries store question limit)
        - Z.of_nat (List.length (all_results (merge store question limit))) <= 1)%Z.
Proof.
  assert (Hresp : total_articles_searched (search_with_multiple_queries store question limit)
                  = total_articles_found (merge store question limit)).
  { unfold search_with_multiple_queries. now destruct (review_loop _ _ _ _ _ _). }
  rewrite Hresp. fold (counted (merge store question limit)).
  unfold merge.
  apply (fold_left_inv (fun s => (0 <= counted s <= 1)%Z)).
  - intros s term. now rewrite key_term_step_counted.
  - assert (Hv : counted (search_variants store question limit) = 0%Z).
    { unfold search_variants.
      apply (fold_left_inv (fun s => counted s = 0%Z)); [|reflexivity].
      intros s q. now rewrite search_step_counted. }
    unfold exact_title_step.
    destruct (title_equals store (strip question)) as [[a|]|]; try (unfold counted in *; simpl; lia).
    destruct (load_categories a); [|unfold counted in *; simpl; lia].
    unfold counted in *. simpl. rewrite dict_set_length.
    destruct (dict_mem _ _); lia.
Qed.

(* ------------------------------------------------------------------ *)
(** ** [get_fact_snippets] *)

Lemma snippet_fold (rs : list SearchResult) :
  forall acc, fold_left snippet_step rs acc = (acc ++ map fact_line (filter has_fact rs))%list.
Proof.
  induction rs as [|r rs IH]; intros acc; simpl; [now rewrite app_nil_r|].
  rewrite IH. unfold snippet_step, has_fact.
  destruct (truthy (snippet r) && (len (snippet r) >? 20)%Z); [|reflexivity].
  now rewrite <- app_assoc.
Qed.

(** X18.  For [max_snippets >= 0], at most [max_snippets] lines are returned,
    and each is the snippet of a search result, 21 to 203 characters long,
    followed by the title of its source. *)
Theorem fact_snippets_are_attributed (store : CorpusStore) (q : string) (max_snippets : Z) :
  (0 <= max_snippets)%Z ->
  (Z.of_nat (List.length (get_fact_snippets store q max_snippets)) <= max_snippets)%Z
  /\ Forall (fun line =>
               exists r,
                 In r (search store q (max_snippets * 2) default_min_score)
                 /\ line = fact_line r
                 /\ (20 < len (snippet r) <= 203)%Z)
            (get_fact_snippets store q max_snippets).
Proof.
  intros Hmax. unfold get_fact_snippets. rewrite snippet_fold. simpl.
  set (found := search store q (max_snippets * 2) default_min_score).
  assert (Hslice : list_slice_to found max_snippets = firstn (Z.to_nat max_snippets) found).
  { unfold list_slice_to. destruct (Z.leb_spec 0 max_snippets); [reflexivity|lia]. }
  rewrite Hslice. split.
  - rewrite length_map.
    pose proof (filter_length_le has_fact (firstn (Z.to_nat max_snippets) found)) as Hf.
    rewrite length_firstn in Hf. lia.
  - rewrite Forall_map, Forall_forall. intros r Hr.
    apply filter_In in Hr as [Hin Hfact]. apply firstn_In in Hin.
    exists r. split; [exact Hin|]. split; [reflexivity|].
    unfold has_fact in Hfact. apply andb_true_iff in Hfact as [_ Hlen].
    rewrite Z.gtb_ltb in Hlen. apply Z.ltb_lt in Hlen.
    assert (Hclean : Forall (fun r => (len (snippet r) <= 203)%Z)
                            (search store q (max_snippets * 2) default_min_score)).
    { apply search_results_satisfy. intros row cats _. simpl. apply clean_snippet_length. }
    rewrite Forall_forall in Hclean. specialize (Hclean r Hin). lia.
Qed.

Lemma fact_snippets_are_attributed_witness :
  (Z.of_nat (List.length (get_fact_snippets corpus "capital" 2)) <= 2)%Z.
Proof.
  apply (fact_snippets_are_attributed corpus "capital" 2). discriminate.
Defined.

(* ------------------------------------------------------------------ *)
(** ** [get_popular_categories] *)

Lemma counts_get_present (counts : Counts) (c : string) (n : Z) :
  NoDup (map fst counts) -> In (c, n) counts -> counts_get c counts = n.
Proof.
  induction counts as [|[c0 n0] counts IH]; simpl; intros Hnd Hin; [destruct Hin|].
  apply NoDup_cons_iff in Hnd as [Hfresh Hnd].
  destruct Hin as [Heq|Hin].
  - inversion Heq; subst. now rewrite String.eqb_refl.
  - destruct (String.eqb c0 c) eqn:E; [|now apply IH].
    apply String.eqb_eq in E. subst c0. exfalso. apply Hfresh.
    now apply (in_map fst) in Hin.
Qed.

Lemma counts_get_absent (counts : Counts) (c : string) :
  ~ In c (map fst counts) -> counts_get c counts = 0%Z.
Proof.
  induction counts as [|[c0 n0] counts IH]; simpl; intros Hout; [reflexivity|].
  destruct (String.eqb c0 c) eqn:E.
  - apply String.eqb_eq in E. tauto.
  - apply IH. tauto.
Qed.

Lemma counts_set_keys (k : string) (v : Z) (counts : Counts) (c : string) :
  In c (map fst (counts_set k v counts)) <-> c = k \/ In c (map fst counts).
Proof.
  induction counts as [|[c0 n0] counts IH]; simpl.
  - split; [intros [<-|[]]; now left|intros [->|[]]; now left].
  - destruct (String.eqb c0 k) eqn:E; simpl.
    + apply String.eqb_eq in E. subst c0. split; [tauto|]. intros [->|H]; tauto.
    + rewrite IH. tauto.
Qed.

Lemma counts_set_distinct (k : string) (v : Z) (counts : Counts) :
  NoDup (map fst counts) -> NoDup (map fst (counts_set k v counts)).
Proof.
  induction counts as [|[c0 n0] counts IH]; simpl; intros Hnd.
  - repeat constructor. intros [].
  - apply NoDup_cons_iff in Hnd as [Hfresh Hnd].
    destruct (String.eqb c0 k) eqn:E; simpl.
    + now constructor.
    + constructor; [|now apply IH].
      rewrite counts_set_keys. intros [->|H]; [|tauto].
      now rewrite String.eqb_refl in E.
Qed.

Lemma counts_set_entries (k : string) (v : Z) (counts : Counts) (c : string) (n : Z) :
  NoDup (map fst counts) ->
  In (c, n) (counts_set k v counts)
  <-> (c = k /\ n = v) \/ (c <> k /\ In (c, n) counts).
Proof.
  induction counts as [|[c0 n0] counts IH]; simpl; intros Hnd.
  - split.
    + intros [Heq|[]]. inversion Heq. now left.
    + intros [[-> ->]|[_ []]]. now left.
  - apply NoDup_cons_iff in Hnd as [Hfresh Hnd].
    destruct (String.eqb c0 k) eqn:E; simpl.
    + apply String.eqb_eq in E. subst c0. split.
      * intros [Heq|Hin]; [inversion Heq; now left|].
        right. split; [|now right]. intros ->. apply Hfresh.
        now apply (in_map fst) in Hin.
      * intros [[-> ->]|[Hne [Heq|Hin]]]; [now left| |now right].
        inversion Heq. congruence.
    + apply String.eqb_neq in E. rewrite (IH Hnd). split.
      * intros [Heq|[H|[Hne Hin]]]; [inversion Heq; subst; right; tauto|now left|].
        right. tauto.
      * intros [H|[Hne [Heq|Hin]]]; [right; now left|now left|right; right; tauto].
Qed.

Lemma count_occ_snoc (seen : list string) (k c : string) :
  count_occ string_dec (seen ++ [k]) c
  = (count_occ string_dec seen c + if string_dec k c then 1 else 0)%nat.
Proof.
  rewrite count_occ_app. simpl. now destruct (string_dec k c).
Qed.

Lemma count_category_tallies (counts : Counts) (seen : list string) (k : string) :
  tallies counts seen -> tallies (count_category counts k) (seen ++ [k])%list.
Proof.
  intros [Hnd Hent]. unfold count_category. split; [now apply counts_set_distinct|].
  assert (Hget : counts_get k counts = Z.of_nat (count_occ string_dec seen k)).
  { destruct (in_dec string_dec k seen) as [Hin|Hout].
    - apply counts_get_present; [exact Hnd|]. apply Hent. now split.
    - rewrite (proj1 (count_occ_not_In string_dec seen k) Hout).
      apply counts_get_absent. intros Hkey.
      apply in_map_iff in Hkey as [[c n] [Heq Hin]]. simpl in Heq. subst c.
      apply Hent in Hin. tauto. }
  intros c n. rewrite (counts_set_entries _ _ _ _ _ Hnd), Hent, in_app_iff, count_occ_snoc.
  rewrite Hget. simpl. destruct (string_dec k c) as [->|Hne].
  - split.
    + intros [[_ ->]|[Hne _]]; [|congruence]. split; [right; now left|lia].
    + intros [_ ->]. left. split; [reflexivity|lia].
  - split.
    + intros [[-> _]|[_ [Hin ->]]]; [congruence|]. split; [now left|lia].
    + intros [[Hin|[Heq|[]]] ->]; [|congruence]. right.
      split; [congruence|]. split; [exact Hin|lia].
Qed.

Lemma count_row_tallies (counts : Counts) (seen : list string) (cell : CategoriesCell) :
  tallies counts seen ->
  tallies (count_row counts cell) (seen ++ cell_categories cell)%list.
Proof.
  intros H.
  destruct cell as [|cats|]; simpl; try (now rewrite app_nil_r).
  revert counts seen H. induction cats as [|k cats IH]; intros counts seen H; simpl.
  - now rewrite app_nil_r.
  - change (k :: cats) with ([k] ++ cats)%list. rewrite app_assoc.
    apply IH. now apply count_category_tallies.
Qed.

Lemma count_rows_tallies (rows : list CategoriesCell) :
  forall counts seen,
    tallies counts seen ->
    tallies (fold_left count_row rows counts) (seen ++ listed_categories rows)%list.
Proof.
  induction rows as [|cell rows IH]; intros counts seen H; simpl.
  - now rewrite app_nil_r.
  - rewrite app_assoc. apply IH. now apply count_row_tallies.
Qed.

Lemma counted_rows (rows : list CategoriesCell) :
  tallies (fold_left count_row rows []) (listed_categories rows).
Proof.
  apply (count_rows_tallies rows [] []). split; [constructor|].
  intros c n. simpl. tauto.
Qed.

Lemma insert_count_perm (x : string * Z) (l : Counts) :
  Permutation (insert_count x l) (x :: l).
Proof.
  induction l as [|y l IH]; simpl; [reflexivity|].
  destruct (snd x <? snd y)%Z; [|reflexivity].
  rewrite IH. apply perm_swap.
Qed.

Lemma sort_counts_perm (l : Counts) : Permutation (sort_counts l) l.
Proof.
  induction l as [|x l IH]; simpl; [reflexivity|].
  rewrite insert_count_perm. now constructor.
Qed.

Lemma insert_count_sorted (x : string * Z) (l : Counts) :
  StronglySorted count_ge l -> StronglySorted count_ge (insert_count x l).
Proof.
  induction 1 as [|y l Hs IH Hall]; simpl.
  - repeat constructor.
  - destruct (Z.ltb_spec (snd x) (snd y)) as [Hlt|Hge].
    + constructor; [exact IH|].
      rewrite (insert_count_perm x l). constructor; [|exact Hall].
      unfold count_ge. lia.
    + constructor; [now constructor|].
      constructor; [exact Hge|].
      eapply Forall_impl; [|exact Hall].
      intros z Hz. unfold count_ge in *. lia.
Qed.

Lemma sort_counts_sorted (l : Counts) : StronglySorted count_ge (sort_counts l).
Proof.
  induction l as [|x l IH]; simpl; [constructor|now apply insert_count_sorted].
Qed.

Lemma sorted_prefix_dominates (n : nat) (l : Counts) (x y : string * Z) :
  StronglySorted count_ge l ->
  In x (firstn n l) -> In y (skipn n l) -> count_ge x y.
Proof.
  intros Hs. revert n. induction Hs as [|a l Hs IH Hall]; intros [|n]; simpl; try tauto.
  intros [<-|Hx] Hy.
  - rewrite Forall_forall in Hall. apply Hall.
    rewrite <- (firstn_skipn n l). apply in_or_app. now right.
  - now apply (IH n).
Qed.

Lemma popular_categories_sorted (rows : list CategoriesCell) (limit : Z) :
  (0 <= limit)%Z ->
  get_popular_categories (Some rows) limit
  = firstn (Z.to_nat limit) (sort_counts (fold_left count_row rows [])).
Proof.
  intros H. unfold get_popular_categories, list_slice_to.
  destruct (Z.leb_spec 0 limit); [reflexivity|lia].
Qed.

Lemma slice_In {A : Type} (l : list A) (n : Z) (x : A) :
  In x (list_slice_to l n) -> In x l.
Proof.
  unfold list_slice_to. destruct (0 <=? n)%Z; apply firstn_In.
Qed.

(** X19.  Every entry of [get_popular_categories] pairs a category with the
    number of times the cells that load list it, which is at least 1; cells
    that do not load are skipped and count nothing. *)
Theorem popular_categories_count_occurrences (rows : list CategoriesCell) (limit : Z) :
  Forall (fun entry => snd entry = occurrences rows (fst entry) /\ (1 <= snd entry)%Z)
         (get_popular_categories (Some rows) limit).
Proof.
  rewrite Forall_forall. intros [c n] Hin. simpl.
  unfold get_popular_categories in Hin. apply slice_In in Hin.
  apply (Permutation_in _ (sort_counts_perm _)) in Hin.
  destruct (counted_rows rows) as [_ Hent]. apply Hent in Hin as [Hseen ->].
  split; [reflexivity|].
  apply (count_occ_In string_dec) in Hseen. lia.
Qed.

(** X20.  For [limit >= 0] the entries are in descending order of count, name
    each category once, are at most [limit], and no category left out is
    listed more often than one that is returned. *)
Theorem popular_categories_are_the_most_frequent (rows : list CategoriesCell) (limit : Z) :
  (0 <= limit)%Z ->
  StronglySorted count_ge (get_popular_categories (Some rows) limit)
  /\ NoDup (map fst (get_popular_categories (Some rows) limit))
  /\ (Z.of_nat (List.length (get_popular_categories (Some rows) limit)) <= limit)%Z
  /\ (forall category,
         In category (listed_categories rows) ->
         ~ In category (map fst (get_popular_categories (Some rows) limit)) ->
         Forall (fun entry => (occurrences rows category <= snd entry)%Z)
                (get_popular_categories (Some rows) limit)).
Proof.
  intros Hlimit. rewrite (popular_categories_sorted rows limit Hlimit).
  set (sorted := sort_counts (fold_left count_row rows [])).
  destruct (counted_rows rows) as [Hnd Hent].
  split; [apply StronglySorted_firstn, sort_counts_sorted|].
  split.
  { assert (H : NoDup (map fst sorted)).
    { eapply Permutation_NoDup; [|exact Hnd].
      apply Permutation_map, Permutation_sym, sort_counts_perm. }
    rewrite <- (firstn_skipn (Z.to_nat limit) sorted), map_app in H.
    now apply NoDup_app_remove_r in H. }
  split; [rewrite length_firstn; lia|].
  intros c Hseen Hout. rewrite Forall_forall. intros entry Hentry.
  assert (Hc : In (c, occurrences rows c) sorted).
  { apply (Permutation_in _ (Permutation_sym (sort_counts_perm _))).
    apply Hent. now split. }
  rewrite <- (firstn_skipn (Z.to_nat limit) sorted) in Hc.
  apply in_app_or in Hc as [Hfirst|Hlast].
  - exfalso. apply Hout. now apply (in_map fst) in Hfirst.
  - exact (sorted_prefix_dominates (Z.to_nat limit) sorted entry (c, occurrences rows c)
                                   (sort_counts_sorted _) Hentry Hlast).
Qed.

Lemma popular_categories_are_the_most_frequent_witness :
  map fst (get_popular_categories (Some category_cells) 1) = ["Poland"]
  /\ Forall (fun entry => (occurrences category_cells "Cities" <= snd entry)%Z)
            (get_popular_categories (Some category_cells) 1).
Proof.
  split; [reflexivity|].
  destruct (popular_categories_are_the_most_frequent category_cells 1) as (_ & _ & _ & H).
  - discriminate.
  - apply (H "Cities").
    + left. reflexivity.
    + vm_compute. intros [Heq|[]]. discriminate Heq.
Defined.

(* ------------------------------------------------------------------ *)
(** ** [get_enhanced_context] *)

Lemma context_step_stalls (max_length : Z) (articles : list ResultDict)
      (parts : list string) (srcs : list SourceDict) :
  (len (join " " parts) <? max_length)%Z = false ->
  fold_left (context_step max_length) articles (parts, srcs) = (parts, srcs).
Proof.
  intros Hfull. induction articles as [|a rest IH]; simpl; [reflexivity|].
  now rewrite Hfull.
Qed.

Lemma context_sources_prefix (max_length : Z) (articles : list ResultDict) :
  forall parts srcs,
  exists k,
    snd (fold_left (context_step max_length) articles (parts, srcs))
    = (srcs ++ map to_source_dict (firstn k articles))%list.
Proof.
  induction articles as [|a rest IH]; intros parts srcs.
  - exists 0%nat. simpl. now rewrite app_nil_r.
  - destruct (len (join " " parts) <? max_length)%Z eqn:E.
    + cbn [fold_left]. unfold context_step at 2. rewrite E.
      match goal with
      | |- context [fold_left _ rest (?p, ?s)] => destruct (IH p s) as [k Hk]
      end.
      exists (S k). rewrite Hk. simpl. now rewrite <- app_assoc.
    + exists 0%nat. rewrite context_step_stalls by exact E. simpl. now rewrite app_nil_r.
Qed.

Lemma reviewed_ids_distinct (store : CorpusStore) (question : string) (limit : Z) :
  NoDup (map article_id (filter (kept question) (candidates store question limit))).
Proof. apply distinct_ids_filter, candidates_nodup. Qed.

Lemma enhanced_sources_fold (store : CorpusStore) (question : string) (max_length : Z) :
  ctx_sources (get_enhanced_context store question max_length)
  = snd (fold_left (context_step max_length)
                   (results (search_with_multiple_queries store question 5)) ([], [])).
Proof.
  unfold get_enhanced_context. now destruct (fold_left _ _ _).
Qed.

Lemma enhanced_context_fold (store : CorpusStore) (question : string) (max_length : Z) :
  exists parts,
    context (get_enhanced_context store question max_length)
    = slice_to (join " " parts) max_length.
Proof.
  unfold get_enhanced_context. destruct (fold_left _ _ _) as [parts srcs].
  now exists parts.
Qed.

Lemma enhanced_confidence_eq (store : CorpusStore) (question : string) (max_length : Z) :
  confidence (get_enhanced_context store question max_length)
  = match ctx_sources (get_enhanced_context store question max_length) with
    | [] => 0
    | s :: l =>
        Qmin (py_sum (map sd_relevance_score (s :: l))
              / inject_Z (Z.of_nat (List.length (s :: l))) * 1.2) 1
    end.
Proof.
  unfold get_enhanced_context. destruct (fold_left _ _ _) as [parts srcs].
  simpl. now destruct srcs.
Qed.

Lemma context_lines_snoc (seen : list ResultDict) (a : ResultDict) :
  context_lines (seen ++ [a])
  = (context_lines seen
       ++ if truthy (rd_summary a) then [context_line a] else [])%list.
Proof.
  unfold context_lines. rewrite filter_app, map_app. simpl.
  now destruct (truthy (rd_summary a)).
Qed.

Lemma context_fold_spec (max_length : Z) (rest : list ResultDict) :
  forall seen,
  exists k,
    (k <= List.length rest)%nat
    /\ fold_left (context_step max_length) rest
                 (context_lines seen, map to_source_dict seen)
       = (context_lines (seen ++ firstn k rest), map to_source_dict (seen ++ firstn k rest))
    /\ (forall j, (j < k)%nat ->
                  (len (collected (seen ++ firstn j rest)) < max_length)%Z)
    /\ ((k < List.length rest)%nat ->
        (max_length <= len (collected (seen ++ firstn k rest)))%Z).
Proof.
  induction rest as [|a rest IH]; intros seen.
  - exists 0%nat. simpl. rewrite app_nil_r. repeat split; try lia.
  - destruct (Z.ltb_spec (len (join " " (context_lines seen))) max_length) as [Hroom|Hfull].
    + destruct (IH (seen ++ [a])%list) as (k & Hk & Hfold & Hbefore & Hstop).
      exists (S k). cbn [firstn List.length].
      assert (Happ : forall l, (seen ++ a :: l = (seen ++ [a]) ++ l)%list)
        by (intros l; now rewrite <- app_assoc).
      split; [lia|]. split; [|split].
      * cbn [fold_left]. unfold context_step at 2.
        apply Z.ltb_lt in Hroom. rewrite Hroom. rewrite Happ, <- Hfold.
        rewrite context_lines_snoc, map_app. simpl.
        now destruct (truthy (rd_summary a)); rewrite ?app_nil_r.
      * intros [|j] Hj.
        -- simpl. rewrite app_nil_r. exact Hroom.
        -- cbn [firstn]. rewrite Happ. apply Hbefore. lia.
      * intros Hlt. rewrite Happ. apply Hstop. lia.
    + exists 0%nat. cbn [firstn]. rewrite app_nil_r.
      split; [simpl; lia|]. split; [|split].
      * apply context_step_stalls. now apply Z.ltb_ge.
      * intros j Hj. lia.
      * intros _. exact Hfull.
Qed.

(** X21.  The sources of [get_enhanced_context] are the first [k] results
    of the multi-query search with limit 5, in their order, and the context
    is the text collected from those [k], cut at [max_length].  [k] is where
    the loop stops: the text collected from fewer than [k] results is
    shorter than [max_length], and if results are left over the text
    collected from the [k] has reached [max_length].  The sources are at
    most five and no two share an [article_id]. *)
Theorem enhanced_sources_are_leading_results (store : CorpusStore) (question : string)
        (max_length : Z) :
  exists k,
    (k <= List.length (results (search_with_multiple_queries store question 5)))%nat
    /\ ctx_sources (get_enhanced_context store question max_length)
       = map to_source_dict
             (firstn k (results (search_with_multiple_queries store question 5)))
    /\ context (get_enhanced_context store question max_length)
       = slice_to
           (collected (firstn k (results (search_with_multiple_queries store question 5))))
           max_length
    /\ (forall j,
           (j < k)%nat ->
           (len (collected
                   (firstn j (results (search_with_multiple_queries store question 5))))
            < max_length)%Z)
    /\ ((k < List.length (results (search_with_multiple_queries store question 5)))%nat ->
        (max_length
         <= len (collected
                   (firstn k (results (search_with_multiple_queries store question 5)))))%Z)
    /\ NoDup (map sd_article_id (ctx_sources (get_enhanced_context store question max_length)))
    /\ (List.length (ctx_sources (get_enhanced_context store question max_length)) <= 5)%nat.
Proof.
  destruct (context_fold_spec max_length
              (results (search_with_multiple_queries store question 5)) [])
    as (k & Hk & Hfold & Hbefore & Hstop).
  cbn [app] in Hfold, Hbefore, Hstop.
  change (context_lines [], map to_source_dict []) with (@nil string, @nil SourceDict) in Hfold.
  assert (Hsources : ctx_sources (get_enhanced_context store question max_length)
                     = map to_source_dict
                           (firstn k (results (search_with_multiple_queries store question 5)))).
  { unfold get_enhanced_context. now rewrite Hfold. }
  exists k. split; [exact Hk|]. split; [exact Hsources|].
  split; [unfold get_enhanced_context; now rewrite Hfold|].
  split; [exact Hbefore|]. split; [exact Hstop|].
  rewrite Hsources. split.
  - rewrite map_map. simpl.
    change (fun x : ResultDict => rd_article_id x) with rd_article_id.
    assert (H : NoDup (map rd_article_id
                           (results (search_with_multiple_queries store question 5)))).
    { rewrite results_eq, !map_map. simpl. apply reviewed_ids_distinct. }
    rewrite <- (firstn_skipn k (results _)), map_app in H.
    now apply NoDup_app_remove_r in H.
  - rewrite length_map, length_firstn.
    pose proof (results_length_le store question 5 ltac:(lia)). lia.
Qed.

(** X22.  For [max_length >= 0] the context of [get_enhanced_context] is at
    most [max_length] characters long, and its confidence lies in [0,1]. *)
Theorem enhanced_context_is_bounded (store : CorpusStore) (question : string)
        (max_length : Z) :
  (0 <= max_length)%Z ->
  (len (context (get_enhanced_context store question max_length)) <= max_length)%Z
  /\ 0 <= confidence (get_enhanced_context store question max_length) <= 1.
Proof.
  intros Hmax. split.
  - destruct (enhanced_context_fold store question max_length) as [parts ->].
    now apply slice_to_length.
  - rewrite enhanced_confidence_eq.
    assert (Hscores : Forall (fun s => 0 <= sd_relevance_score s)
                             (ctx_sources (get_enhanced_context store question max_length))).
    { rewrite enhanced_sources_fold.
      destruct (context_sources_prefix max_length
                  (results (search_with_multiple_queries store question 5)) [] [])
        as [k ->].
      simpl. rewrite Forall_map, Forall_forall. intros r Hr. apply firstn_In in Hr.
      pose proof (results_scored store question 5) as Hall.
      rewrite Forall_forall in Hall. destruct (Hall r Hr) as [Hpos _].
      simpl. apply Qlt_le_weak. eapply Qle_lt_trans; [|exact Hpos]. q_const. }
    destruct (ctx_sources _) as [|s l]; [split; q_const|].
    split; [|apply Q.le_min_r].
    apply Q.min_glb; [|q_const].
    assert (Hsum : 0 <= py_sum (map sd_relevance_score (s :: l))).
    { unfold py_sum. apply fold_sum_nonneg; [|apply Qle_refl]. now rewrite Forall_map. }
    pose proof (Qdiv_nonneg _ (inject_Z (Z.of_nat (List.length (s :: l)))) Hsum
                            (inject_nat_nonneg _)) as Havg.
    lra.
Qed.

Lemma enhanced_context_is_bounded_witness :
  (len (context (get_enhanced_context corpus "capital city of Poland" 100)) <= 100)%Z.
Proof.
  apply (enhanced_context_is_bounded corpus "capital city of Poland" 100). discriminate.
Defined.
